(** * Stock data dashboard: metrics derivation, row cache and orchestration

    A shallow embedding of [data_processor.py], [database.py], the
    handlers and the start-up loop of [api.py], and [load_stock_data] and
    the bar colours of [create_returns_chart] of [app.py].
    [get_52_week_summary] compares the stored date text with SQLite's
    [date('now', '-365 days')] and is not modelled; the charts and the page
    layout of [app.py] are presentation and are not modelled either.

    Numbers.  The REAL columns of the program are IEEE doubles.  They are
    modelled by exact rationals extended with the two infinities and NaN
    ([fval]); rounding and the sign of zero are not modelled.  [np.sqrt] is
    not rational-valued, so it is a parameter of the development.

    Statements about a mean or a standard deviation are therefore
    statements about the exact value; the extrema and the comparisons are
    the same in both arithmetics.

    Frames.  A pandas DataFrame is a list of rows in index order.  Raw rows
    may hold nulls in their numeric cells, cleaned rows cannot.  A row
    carries the twelve columns that are saved; the frame of the feed has
    further columns, and a frame read back with [SELECT *] has [id] and
    [created_at] as well, which no modelled function reads.  A column
    that is NULL throughout is read back as objects, not as floats: see
    [get_summary_statistics_read_back]. *)

From Stdlib Require Import String Ascii.
From Stdlib Require Import Floats.PrimFloat.
From Stdlib Require Import List Bool Arith ZArith QArith Qminmax Lia
  Permutation Sorted.
Import ListNotations.

Open Scope Q_scope.

(** ** Extended rationals: the float64 cells *)

Inductive fval : Type :=
| Fin (q : Q)
| PInf
| NInf
| NaN.

(** [pd.isna]: only NaN is null, an infinity is not. *)
Definition isna (x : fval) : bool :=
  match x with NaN => true | _ => false end.

(** Equality of cells up to the representation of the rational. *)
Definition feq (x y : fval) : Prop :=
  match x, y with
  | Fin a, Fin b => a == b
  | PInf, PInf => True
  | NInf, NInf => True
  | NaN, NaN => True
  | _, _ => False
  end.

(** Float division of two finite numbers: [x / 0] is an infinity of the sign
    of [x], and [0 / 0] is NaN. *)
Definition fdiv_fin (n d : Q) : fval :=
  if Qeq_bool d 0 then
    match n ?= 0 with
    | Gt => PInf
    | Lt => NInf
    | Eq => NaN
    end
  else Fin (n / d).

Definition fadd (x y : fval) : fval :=
  match x, y with
  | NaN, _ | _, NaN => NaN
  | Fin a, Fin b => Fin (a + b)
  | PInf, NInf | NInf, PInf => NaN
  | PInf, _ | _, PInf => PInf
  | NInf, _ | _, NInf => NInf
  end.

(** An infinity times a finite number: the sign of the product, NaN at 0. *)
Definition finf_scale (positive : bool) (q : Q) : fval :=
  match q ?= 0 with
  | Eq => NaN
  | Gt => if positive then PInf else NInf
  | Lt => if positive then NInf else PInf
  end.

Definition fmul (x y : fval) : fval :=
  match x, y with
  | NaN, _ | _, NaN => NaN
  | Fin a, Fin b => Fin (a * b)
  | PInf, Fin b => finf_scale true b
  | NInf, Fin b => finf_scale false b
  | Fin a, PInf => finf_scale true a
  | Fin a, NInf => finf_scale false a
  | PInf, PInf | NInf, NInf => PInf
  | PInf, NInf | NInf, PInf => NInf
  end.

(** The quotient of [calculate_metrics] on binary64 itself, for the one
    place where a statement names a decimal. *)
Definition float64_return (o c : float) : float :=
  PrimFloat.div (PrimFloat.sub c o) o.

(** The double nearest to 0.05, which is what the literal [0.05] denotes. *)
Definition float64_0_05 : float := 0x1.999999999999ap-5%float.

(** ** Rows *)

Definition timestamp := Z.

(** A bar as the external feed delivers it: any numeric cell may be null. *)
Record RawBar : Type := mkRawBar {
  raw_symbol : string;
  raw_date : timestamp;
  raw_open : option Q;
  raw_high : option Q;
  raw_low : option Q;
  raw_close : option Q;
  raw_volume : option Z
}.

(** A bar that survived [clean_data]: no null in the five numeric cells. *)
Record Bar : Type := mkBar {
  symbol : string;
  date : timestamp;
  open : Q;
  high : Q;
  low : Q;
  close : Q;
  volume : Z
}.

(** The twelve columns of [df_to_save]: the bar and the five derived
    columns.  These are the columns that the frame of [calculate_metrics]
    and a frame read back from the [stock_data] table have in common; the
    first also has the other columns of the feed, the second [id] and
    [created_at]. *)
Record MetricRow : Type := mkMetricRow {
  bar : Bar;
  daily_return : fval;
  ma_7 : fval;
  week_52_high : fval;
  week_52_low : fval;
  volatility_score : fval
}.

Definition empty {A : Type} (df : list A) : bool :=
  match df with [] => true | _ :: _ => false end.

(** ** [StockDataProcessor.clean_data] *)

Definition notna {A : Type} (c : option A) : bool :=
  match c with Some _ => true | None => false end.

(** [df.dropna(subset=['open', 'high', 'low', 'close'])] *)
Definition dropna_ohlc (df : list RawBar) : list RawBar :=
  filter (fun r => notna (raw_open r) && notna (raw_high r)
                   && notna (raw_low r) && notna (raw_close r)) df.

(** [df['close'] > 0]: a comparison with a null cell is false. *)
Definition close_positive (r : RawBar) : bool :=
  match raw_close r with
  | Some c => negb (Qle_bool c 0)
  | None => false
  end.

(** [df.dropna(subset=numeric_cols)] after [pd.to_numeric], which leaves a
    numeric cell as it is: the rows without a null in the five numeric
    columns, now typed as bars. *)
Definition to_bar (r : RawBar) : option Bar :=
  match raw_open r, raw_high r, raw_low r, raw_close r, raw_volume r with
  | Some o, Some h, Some l, Some c, Some v =>
      Some (mkBar (raw_symbol r) (raw_date r) o h l c v)
  | _, _, _, _, _ => None
  end.

Fixpoint dropna_numeric (df : list RawBar) : list Bar :=
  match df with
  | [] => []
  | r :: rest =>
      match to_bar r with
      | Some b => b :: dropna_numeric rest
      | None => dropna_numeric rest
      end
  end.

Definition clean_data (df : list RawBar) : list Bar :=
  if empty df then []
  else dropna_numeric (filter close_positive (dropna_ohlc df)).

(** ** [df.sort_values]: a stable insertion sort on an integer key

    The order pandas gives to rows with equal keys is not modelled beyond
    this choice; the feed delivers one bar per date and the table admits
    one row per (symbol, date). *)

Section Sorting.
Context {A : Type} (key : A -> Z).

Fixpoint insert_sorted (x : A) (l : list A) : list A :=
  match l with
  | [] => [x]
  | y :: t =>
      if (key x <=? key y)%Z then x :: y :: t
      else y :: insert_sorted x t
  end.

Fixpoint sort_values (l : list A) : list A :=
  match l with
  | [] => []
  | x :: t => insert_sorted x (sort_values t)
  end.
End Sorting.

(** ** [Series.rolling(window, min_periods)] *)

(** The last [w] elements of a list. *)
Definition lastn {A : Type} (w : nat) (l : list A) : list A :=
  skipn (length l - w) l.

(** The rolling routines see an infinity as a missing observation. *)
Definition prep_value (x : fval) : option Q :=
  match x with Fin q => Some q | _ => None end.

Fixpoint observations (win : list (option Q)) : list Q :=
  match win with
  | [] => []
  | Some q :: t => q :: observations t
  | None :: t => observations t
  end.

(** The value of one window: NaN below [minp] observations. *)
Definition window_value (minp : nat) (agg : list Q -> fval)
    (win : list (option Q)) : fval :=
  let obs := observations win in
  if (length obs <? minp)%nat then NaN else agg obs.

(** One pass over the column, carrying the trailing window: each value
    enters the window and the oldest leaves once [w] are held. *)
Fixpoint rolling_from (w minp : nat) (agg : list Q -> fval)
    (hist : list (option Q)) (xs : list (option Q)) : list fval :=
  match xs with
  | [] => []
  | x :: rest =>
      let win := lastn w (hist ++ [x]) in
      window_value minp agg win :: rolling_from w minp agg win rest
  end.

Definition rolling (w minp : nat) (agg : list Q -> fval) (col : list fval)
    : list fval :=
  rolling_from w minp agg [] (map prep_value col).

Definition Qsum (l : list Q) : Q := fold_right Qplus 0 l.

Definition Qlen (l : list Q) : Q := inject_Z (Z.of_nat (length l)).

Definition Qmean (l : list Q) : Q := Qsum l / Qlen l.

(** [.mean()] of a window, as an exact quotient; the float64 result is
    this value rounded. *)
Definition agg_mean (obs : list Q) : fval :=
  match obs with
  | [] => NaN
  | _ :: _ => Fin (Qmean obs)
  end.

Definition agg_max (obs : list Q) : fval :=
  match obs with
  | [] => NaN
  | x :: t => Fin (fold_left Qmax t x)
  end.

Definition agg_min (obs : list Q) : fval :=
  match obs with
  | [] => NaN
  | x :: t => Fin (fold_left Qmin t x)
  end.

(** Sample variance, [ddof=1]: undefined for fewer than two observations. *)
Definition sample_var (obs : list Q) : Q :=
  let m := Qmean obs in
  Qsum (map (fun x => (x - m) * (x - m)) obs) / (Qlen obs - 1).

(** An executable rational square root, exact on squares of rationals and
    rounded down otherwise; it instantiates the [np.sqrt] parameter where a
    closed example needs one. *)
Definition sqrt_floor (q : Q) : Q :=
  Z.sqrt (Qnum q * Zpos (Qden q)) # Qden q.

Section Processor.

(** [np.sqrt], restricted to the rationals the program feeds it. *)
Variable np_sqrt : Q -> Q.

(** [.std()] of a window: NaN unless two observations are present,
    otherwise the root of the exact sample variance; overflow to an
    infinity is not modelled. *)
Definition agg_std (obs : list Q) : fval :=
  if (length obs <=? 1)%nat then NaN
  else Fin (np_sqrt (sample_var obs)).

(** ** [StockDataProcessor.calculate_metrics] *)

(** [(df['close'] - df['open']) / df['open']] on one row. *)
Definition row_return (b : Bar) : fval :=
  fdiv_fin (close b - open b) (open b).

(** The frame with its five new columns, row by row. *)
Fixpoint assign_columns (df : list Bar) (dr ma hi lo vol : list fval)
    : list MetricRow :=
  match df, dr, ma, hi, lo, vol with
  | b :: df', d :: dr', m :: ma', h :: hi', l :: lo', v :: vol' =>
      mkMetricRow b d m h l v :: assign_columns df' dr' ma' hi' lo' vol'
  | _, _, _, _, _, _ => []
  end.

Definition column (f : Bar -> Q) (df : list Bar) : list fval :=
  map (fun b => Fin (f b)) df.

Definition volatility_column (dr : list fval) : list fval :=
  map (fun s => fmul (fmul s (Fin (np_sqrt 252))) (Fin 100))
      (rolling 20 1 agg_std dr).

Definition calculate_metrics (df : list Bar) : list MetricRow :=
  if empty df then []
  else
    let df := sort_values date df in
    let dr := map row_return df in
    assign_columns df dr
      (rolling 7 1 agg_mean (column close df))
      (rolling 252 1 agg_max (column high df))
      (rolling 252 1 agg_min (column low df))
      (volatility_column dr).

(** ** [StockDataProcessor.get_summary_statistics] *)

Record Summary : Type := mkSummary {
  s_52_week_high : fval;
  s_52_week_low : fval;
  avg_close : fval;
  current_price : fval;
  total_days : nat;
  avg_volume : fval;
  avg_daily_return : fval;
  volatility : fval
}.

(** [Series.mean()]: nulls are skipped, infinities are summed. *)
Definition series_mean (col : list fval) : fval :=
  let vals := filter (fun x => negb (isna x)) col in
  match vals with
  | [] => NaN
  | _ :: _ =>
      match fold_right fadd (Fin 0) vals with
      | Fin s => Fin (s / inject_Z (Z.of_nat (length vals)))
      | other => other
      end
  end.

(** [df.iloc[-1]] *)
Definition iloc_last {A : Type} (df : list A) : option A :=
  match rev df with
  | [] => None
  | r :: _ => Some r
  end.

Definition days_365 : Z := 365 * 86400.

(** The dict of the source, [{}] being [None]; [now] is the value of
    [datetime.now()] at the call. *)
Definition get_summary_statistics (now : timestamp) (df : list MetricRow)
    : option Summary :=
  match iloc_last df with
  | None => None
  | Some last_row =>
      let cutoff_date := (now - days_365)%Z in
      let df_year :=
        filter (fun r => (cutoff_date <=? date (bar r))%Z) df in
      let df_year := if empty df_year then df else df_year in
      Some (mkSummary
        (agg_max (map (fun r => high (bar r)) df_year))
        (agg_min (map (fun r => low (bar r)) df_year))
        (agg_mean (map (fun r => close (bar r)) df_year))
        (Fin (close (bar last_row)))
        (length df)
        (agg_mean (map (fun r => inject_Z (volume (bar r))) df))
        (fmul (series_mean (map daily_return df)) (Fin 100))
        (volatility_score last_row))
  end.

(** ** [fetch_stock_data] and [process_stock] *)

(** The external feed, [yf.Ticker(symbol).history(period)]: [None] when
    the call raises. *)
Variable yf_history : string -> string -> option (list RawBar).

Definition fetch_stock_data (sym period : string) : list RawBar :=
  match yf_history sym period with
  | None => []
  | Some df =>
      if empty df then []
      else map (fun r => mkRawBar sym (raw_date r) (raw_open r)
                           (raw_high r) (raw_low r) (raw_close r)
                           (raw_volume r)) df
  end.

Definition process_stock (now : timestamp) (sym period : string)
    : list MetricRow * option Summary :=
  let df := fetch_stock_data sym period in
  if empty df then ([], None)
  else
    let df := clean_data df in
    let df := calculate_metrics df in
    (df, get_summary_statistics now df).

End Processor.

(** ** [database.py]: the two tables *)

(** What a call either returns or raises. *)
Inductive outcome (E A : Type) : Type :=
| Returned (a : A)
| Raised (e : E).
Arguments Returned {E A} a.
Arguments Raised {E A} e.

(** [sqlite3.IntegrityError], raised by the [UNIQUE(symbol, date)]
    constraint of [stock_data]; it carries the key that collided. *)
Inductive db_error : Type :=
| IntegrityError (sym : string) (d : timestamp).

(** [str(e)] *)
Definition error_message (e : db_error) : string :=
  match e with
  | IntegrityError _ _ =>
      "UNIQUE constraint failed: stock_data.symbol, stock_data.date"
  end.

Record Company : Type := mkCompany {
  company_symbol : string;
  company_name : string;
  last_updated : timestamp
}.

(** The tables in rowid order. *)
Record StockDatabase : Type := mkDatabase {
  companies : list Company;
  stock_data : list MetricRow
}.

(** [init_database] on a fresh file. *)
Definition init_database : StockDatabase := mkDatabase [] [].

(** [INSERT OR REPLACE INTO companies] *)
Definition add_company (now : timestamp) (db : StockDatabase)
    (sym name : string) : StockDatabase :=
  mkDatabase
    (filter (fun c => negb (String.eqb (company_symbol c) sym))
            (companies db)
     ++ [mkCompany sym name now])
    (stock_data db).

Definition get_all_companies (db : StockDatabase) : list Company :=
  companies db.

Definition same_key (r1 r2 : MetricRow) : bool :=
  String.eqb (symbol (bar r1)) (symbol (bar r2))
  && (date (bar r1) =? date (bar r2))%Z.

(** The inserts of one [to_sql(if_exists='append')], in frame order: a row
    whose (symbol, date) is already in the table stops them. *)
Fixpoint insert_rows (table : list MetricRow) (df : list MetricRow)
    : outcome db_error (list MetricRow) :=
  match df with
  | [] => Returned table
  | r :: rest =>
      if existsb (same_key r) table
      then Raised (IntegrityError (symbol (bar r)) (date (bar r)))
      else insert_rows (table ++ [r]) rest
  end.

(** [save_stock_data]: the inserts run in one transaction, which is rolled
    back when one of them raises. *)
Definition save_stock_data (db : StockDatabase) (df : list MetricRow)
    : outcome db_error unit * StockDatabase :=
  match insert_rows (stock_data db) df with
  | Returned table => (Returned tt, mkDatabase (companies db) table)
  | Raised e => (Raised e, db)
  end.

(** [SELECT * FROM stock_data WHERE symbol = ? ORDER BY date] *)
Definition get_all_stock_data (db : StockDatabase) (sym : string)
    : list MetricRow :=
  sort_values (fun r => date (bar r))
    (filter (fun r => String.eqb (symbol (bar r)) sym) (stock_data db)).

(** [DELETE FROM stock_data WHERE symbol = ?] *)
Definition clear_stock_data (db : StockDatabase) (sym : string)
    : StockDatabase :=
  mkDatabase (companies db)
    (filter (fun r => negb (String.eqb (symbol (bar r)) sym))
            (stock_data db)).

(** ** Frames read back from the table *)

(** What the callers of the database can see raised: the error of the
    table, or the [TypeError] of [float(None)]. *)
Inductive py_exception : Type :=
| SqlError (e : db_error)
| TypeError (message : string).

Definition exception_message (e : py_exception) : string :=
  match e with
  | SqlError e => error_message e
  | TypeError message => message
  end.

(** [str(e)] for the [TypeError] of [float(None)], in the wording of
    CPython 3.10 and later. *)
Definition float_of_none : string :=
  "float() argument must be a string or a real number, not 'NoneType'".

(** [pd.read_sql_query] gives a REAL column the dtype float64, a NULL
    becoming NaN, unless every cell of the column is NULL: the column then
    keeps the objects that SQLite returned, all [None]. *)
Definition read_as_objects (column : list fval) : bool :=
  forallb isna column.

(** [get_summary_statistics] on a frame that [get_all_stock_data]
    returned.  The one cell it reads with [float(...)] from a column that
    can be NULL throughout is the last [volatility_score]: when the column
    came back as objects that cell is [None] and [float] raises. *)
Definition get_summary_statistics_read_back (now : timestamp)
    (df : list MetricRow) : outcome py_exception (option Summary) :=
  if empty df then Returned None
  else if read_as_objects (map volatility_score df)
       then Raised (TypeError float_of_none)
       else Returned (get_summary_statistics now df).

(** ** [api.py]: [GET /data/{symbol}] *)

Inductive http (A : Type) : Type :=
| Response (body : A)
| HTTPException (status_code : Z) (detail : string).
Arguments Response {A} body.
Arguments HTTPException {A} status_code detail.

Record DataResponse : Type := mkDataResponse {
  resp_symbol : string;
  days_returned : nat;
  data : list MetricRow
}.

(** [df.tail(n)]: the last [n] rows, or all but the first [-n]. *)
Definition tail {A : Type} (n : Z) (df : list A) : list A :=
  if (0 <=? n)%Z then lastn (Z.to_nat n) df
  else skipn (Z.to_nat (- n)) df.

Section Orchestrator.

Variable np_sqrt : Q -> Q.
Variable yf_history : string -> string -> option (list RawBar).

(** The handler of [GET /data/{symbol}].  The [try] block is the first
    [match]: an exception of [save_stock_data] becomes a 500, the 404
    raised inside the block is passed on as it is. *)
Definition get_stock_data (now : timestamp) (db : StockDatabase)
    (sym : string) (days : Z) : http DataResponse * StockDatabase :=
  let df := get_all_stock_data db sym in
  let '(loaded, db) :=
    if empty df then
      let '(df, _) := process_stock np_sqrt yf_history now sym "1y" in
      if negb (empty df) then
        match save_stock_data db df with
        | (Returned _, db') => (Returned df, db')
        | (Raised e, db') => (Raised e, db')
        end
      else (Returned df, db)
    else (Returned df, db) in
  match loaded with
  | Raised e =>
      (HTTPException 500
         ("Error fetching stock data: " ++ error_message e), db)
  | Returned df =>
      if empty df then
        (HTTPException 404 ("No data found for symbol: " ++ sym), db)
      else
        let df := tail days df in
        (Response (mkDataResponse sym (length df) df), db)
  end.

(** ** [app.py]: [load_stock_data] *)

Definition load_result : Type :=
  outcome py_exception (list MetricRow * option Summary) * StockDatabase.

(** The statements after the [if refresh:] block, reached when [refresh]
    is off or when the refresh fetched an empty frame. *)
Definition load_from_cache (now : timestamp) (db : StockDatabase)
    (sym : string) : load_result :=
  let df := get_all_stock_data db sym in
  if empty df then
    let '(df, summary) := process_stock np_sqrt yf_history now sym "1y" in
    if negb (empty df) then
      match save_stock_data db df with
      | (Returned _, db') => (Returned (df, summary), db')
      | (Raised e, db') => (Raised (SqlError e), db')
      end
    else (Returned (df, summary), db)
  else
    match get_summary_statistics_read_back now df with
    | Returned summary => (Returned (df, summary), db)
    | Raised e => (Raised e, db)
    end.

Definition load_stock_data (now : timestamp) (db : StockDatabase)
    (sym : string) (refresh : bool) : load_result :=
  if refresh then
    let '(df, summary) := process_stock np_sqrt yf_history now sym "1y" in
    if negb (empty df) then
      let db := clear_stock_data db sym in
      match save_stock_data db df with
      | (Returned _, db') => (Returned (df, summary), db')
      | (Raised e, db') => (Raised (SqlError e), db')
      end
    else load_from_cache now db sym
  else load_from_cache now db sym.

End Orchestrator.

(** ** The vocabulary of the statements *)

(** Ascending order on a key, ties allowed. *)
Definition key_le {A : Type} (key : A -> Z) (x y : A) : Prop :=
  (key x <= key y)%Z.

(** The rows [i - w + 1 .. i] of a column, clipped at the start. *)
Definition trailing {A : Type} (w i : nat) (l : list A) : list A :=
  firstn (Nat.min w (S i)) (skipn (S i - w) l).

Definition is_maximum (m : Q) (l : list Q) : Prop :=
  In m l /\ Forall (fun y => y <= m) l.

Definition is_minimum (m : Q) (l : list Q) : Prop :=
  In m l /\ Forall (fun y => m <= y) l.

Definition row_date (r : MetricRow) : timestamp := date (bar r).

Definition date_close (r : MetricRow) : timestamp * Q :=
  (date (bar r), close (bar r)).

Definition has_symbol (sym : string) (r : MetricRow) : bool :=
  String.eqb (symbol (bar r)) sym.

(** [clean_data] followed by [calculate_metrics]. *)
Definition derive (np_sqrt : Q -> Q) (series : list RawBar)
    : list MetricRow :=
  calculate_metrics np_sqrt (clean_data series).

(** ** Example data *)

Definition raw_day (d : Z) (o h l c : Q) : RawBar :=
  mkRawBar "TCS.NS" d (Some o) (Some h) (Some l) (Some c) (Some 1000%Z).

Definition day (d : Z) (o h l c : Q) : Bar :=
  mkBar "TCS.NS" d o h l c 1000.

Definition two_days : list RawBar :=
  [raw_day 1 100 110 90 105; raw_day 2 105 120 100 110].

Definition three_days : list Bar :=
  [day 1 10 12 9 11; day 2 11 15 10 14; day 3 14 16 8 9].

Definition null_row : MetricRow :=
  mkMetricRow (day 0 0 0 0 0) NaN NaN NaN NaN NaN.

(** A series that rises by one each day, 253 rows long. *)
Definition rising_year : list Bar :=
  map (fun k => let p := inject_Z (Z.of_nat (S k)) in
                day (Z.of_nat k) p p p p)
      (seq 0 253).

Definition flat_days : list Bar :=
  [day 1 100 110 90 105; day 2 100 112 95 105; day 3 200 220 180 210].

Definition stored_day : MetricRow :=
  mkMetricRow (day 1 100 110 90 105) (Fin (5 # 100)) (Fin 105) (Fin 110)
    (Fin 90) NaN.

Definition refetched_day : MetricRow :=
  mkMetricRow (day 1 101 111 91 106) (Fin (5 # 101)) (Fin 106) (Fin 111)
    (Fin 91) NaN.

Definition later_day : MetricRow :=
  mkMetricRow (day 2 105 120 100 110) (Fin (5 # 105)) (Fin (215 # 2))
    (Fin 120) (Fin 90) (Fin 0).

(** A feed that knows one symbol, fails on another and is empty on the
    rest. *)
Definition example_feed (sym period : string) : option (list RawBar) :=
  if String.eqb sym "TCS.NS" then Some two_days
  else if String.eqb sym "DOWN.NS" then None
  else Some [].

(** A feed that delivers the same day twice. *)
Definition repeating_feed (sym period : string) : option (list RawBar) :=
  Some [raw_day 1 100 110 90 105; raw_day 1 100 110 90 105].

(** The feed during an outage: every call raises. *)
Definition outage_feed (sym period : string) : option (list RawBar) := None.

(** ** The other operations of the three modules *)

(** [StockDataProcessor.NSE_STOCKS] *)
Definition NSE_STOCKS : list (string * string) :=
  ([("RELIANCE.NS", "Reliance Industries");
   ("TCS.NS", "Tata Consultancy Services");
   ("HDFCBANK.NS", "HDFC Bank");
   ("INFY.NS", "Infosys");
   ("ICICIBANK.NS", "ICICI Bank");
   ("HINDUNILVR.NS", "Hindustan Unilever");
   ("ITC.NS", "ITC");
   ("SBIN.NS", "State Bank of India");
   ("BHARTIARTL.NS", "Bharti Airtel");
   ("KOTAKBANK.NS", "Kotak Mahindra Bank");
   ("LT.NS", "Larsen & Toubro");
   ("AXISBANK.NS", "Axis Bank");
   ("WIPRO.NS", "Wipro");
   ("MARUTI.NS", "Maruti Suzuki");
   ("TITAN.NS", "Titan Company")])%string.

(** The start-up loop of [api.py] and of [main] in [app.py],
    [for stock in stocks: db.add_company(stock['symbol'], stock['name'])];
    [clock k] is what [datetime.now()] returns in the call number [k]. *)
Fixpoint register_companies (clock : nat -> timestamp) (k : nat)
    (db : StockDatabase) (stocks : list (string * string)) : StockDatabase :=
  match stocks with
  | [] => db
  | (sym, name) :: rest =>
      register_companies clock (S k) (add_company (clock k) db sym name) rest
  end.

(** The colour of a bar in [create_returns_chart] of [app.py]:
    ['green' if x >= 0 else 'red'], where a comparison with NaN is false. *)
Definition return_color (x : fval) : string :=
  match x with
  | Fin q => if Qle_bool 0 q then "green" else "red"
  | PInf => "green"
  | NInf | NaN => "red"
  end.

Module Database.

(** [StockDatabase.get_stock_data]:
    [SELECT * FROM stock_data WHERE symbol = ? ORDER BY date DESC LIMIT ?],
    where a negative limit is no limit, then [df.sort_values('date')]. *)
Definition get_stock_data (db : StockDatabase) (sym : string) (days : Z)
    : list MetricRow :=
  let selected :=
    sort_values (fun r => (- date (bar r))%Z)
      (filter (fun r => String.eqb (symbol (bar r)) sym) (stock_data db)) in
  let limited :=
    if (days <? 0)%Z then selected else firstn (Z.to_nat days) selected in
  sort_values (fun r => date (bar r)) limited.

End Database.

(** The body of [GET /summary/{symbol}]. *)
Record SummaryResponse : Type := mkSummaryResponse {
  summary_symbol : string;
  r_52_week_high : fval;
  r_52_week_low : fval;
  r_avg_close : fval;
  r_current_price : fval;
  r_avg_daily_return_percent : fval;
  r_volatility_score : fval;
  r_avg_volume : fval;
  r_total_days : nat
}.

(** [summary.get(key, 0)] for each key of the response. *)
Definition summary_response (sym : string) (summary : option Summary)
    : SummaryResponse :=
  match summary with
  | Some s =>
      mkSummaryResponse sym (s_52_week_high s) (s_52_week_low s)
        (avg_close s) (current_price s) (avg_daily_return s) (volatility s)
        (avg_volume s) (total_days s)
  | None =>
      mkSummaryResponse sym (Fin 0) (Fin 0) (Fin 0) (Fin 0) (Fin 0) (Fin 0)
        (Fin 0) 0
  end.

(** The handler of [GET /companies]; reading the table cannot raise. *)
Definition get_companies (db : StockDatabase) : http (list Company) :=
  Response (get_all_companies db).

Section SummaryHandler.

Variable np_sqrt : Q -> Q.
Variable yf_history : string -> string -> option (list RawBar).

(** The handler of [GET /summary/{symbol}].  The frame that reaches
    [get_summary_statistics] is the cached one, read back from the table,
    or on a miss the fresh one; an exception of the save or of the summary
    becomes a 500. *)
Definition get_summary (now : timestamp) (db : StockDatabase)
    (sym : string) : http SummaryResponse * StockDatabase :=
  let df := get_all_stock_data db sym in
  let '(loaded, db) :=
    if empty df then
      let '(df, _) := process_stock np_sqrt yf_history now sym "1y" in
      if negb (empty df) then
        match save_stock_data db df with
        | (Returned _, db') => (Returned (df, false), db')
        | (Raised e, db') => (Raised e, db')
        end
      else (Returned (df, false), db)
    else (Returned (df, true), db) in
  match loaded with
  | Raised e =>
      (HTTPException 500 ("Error fetching summary: " ++ error_message e), db)
  | Returned (df, read_back) =>
      if empty df then
        (HTTPException 404 ("No data found for symbol: " ++ sym), db)
      else
        let summary :=
          if read_back : bool then get_summary_statistics_read_back now df
          else Returned (get_summary_statistics now df) in
        match summary with
        | Returned summary => (Response (summary_response sym summary), db)
        | Raised e =>
            (HTTPException 500
               ("Error fetching summary: " ++ exception_message e), db)
        end
  end.

End SummaryHandler.

(** ** More vocabulary *)

(** The key of the uniqueness constraint. *)
Definition row_key (r : MetricRow) : string * timestamp :=
  (symbol (bar r), date (bar r)).

Definition unique_keys (table : list MetricRow) : Prop :=
  NoDup (map row_key table).

(** A cleaned bar written back as the feed would deliver it. *)
Definition raw_of (b : Bar) : RawBar :=
  mkRawBar (symbol b) (date b) (Some (open b)) (Some (high b))
    (Some (low b)) (Some (close b)) (Some (volume b)).

(** The raw rows that cleaning keeps: no null in the five numeric cells
    and a positive close. *)
Definition survives (r : RawBar) : bool :=
  match to_bar r with
  | Some b => negb (Qle_bool (close b) 0)
  | None => false
  end.

(** The bar is consistent: its low and high bracket its close. *)
Definition bracketed (b : Bar) : Prop :=
  low b <= close b /\ close b <= high b.

Definition fle (x y : fval) : Prop :=
  match x, y with
  | Fin a, Fin b => a <= b
  | _, _ => False
  end.

(** The company is one of the listed symbols. *)
Definition listed (symbols : list string) (c : Company) : bool :=
  existsb (String.eqb (company_symbol c)) symbols.

(** The entries that the start-up loop writes, in its order. *)
Fixpoint registered (clock : nat -> timestamp) (k : nat)
    (stocks : list (string * string)) : list Company :=
  match stocks with
  | [] => []
  | (sym, name) :: rest =>
      mkCompany sym name (clock k) :: registered clock (S k) rest
  end.

(** The row belongs to the symbol. *)
Definition of_symbol (sym : string) (r : MetricRow) : Prop :=
  symbol (bar r) = sym.

(** The rows dated within 365 days before [now]. *)
Definition last_year (now : timestamp) (df : list MetricRow)
    : list MetricRow :=
  filter (fun r => (now - days_365 <=? date (bar r))%Z) df.

(** What one call does to the database. *)
Inductive db_step : StockDatabase -> StockDatabase -> Prop :=
| step_add_company now db sym name :
    db_step db (add_company now db sym name)
| step_save db df :
    db_step db (snd (save_stock_data db df))
| step_clear db sym :
    db_step db (clear_stock_data db sym).

(** The databases that calls can produce from a fresh file. *)
Inductive reachable : StockDatabase -> Prop :=
| reach_init : reachable init_database
| reach_step db db' : reachable db -> db_step db db' -> reachable db'.

(** ** The derivation as the interpreter runs it

    [clean_data] and [calculate_metrics] statement by statement, on a
    store of frame objects.  A variable of the source holds a reference,
    [df.copy()] and every operation that returns a frame put a new object
    in the store, [df[col] = ...] replaces the object in its cell.  Next
    to the store the world has what a call could read or change behind
    its arguments: the clock, the state of the random generator and the
    database.  A program that is given a frame of another shape than its
    call sites pass has no result. *)

Inductive frame : Type :=
| RawFrame (rows : list RawBar)
| CleanFrame (rows : list Bar)
| MetricFrame (rows : list MetricRow).

(** [df.empty] *)
Definition frame_empty (f : frame) : bool :=
  match f with
  | RawFrame rows => empty rows
  | CleanFrame rows => empty rows
  | MetricFrame rows => empty rows
  end.

(** The rows of a frame that has the metric columns. *)
Definition metric_rows (f : frame) : list MetricRow :=
  match f with
  | MetricFrame rows => rows
  | RawFrame _ | CleanFrame _ => []
  end.

Record World : Type := mkWorld {
  frames : list frame;
  wall_clock : timestamp;
  random_state : Z;
  database : StockDatabase
}.

Definition Prog (A : Type) : Type := World -> option (A * World).

Definition ret {A : Type} (a : A) : Prog A := fun w => Some (a, w).

Definition bind {A B : Type} (m : Prog A) (k : A -> Prog B) : Prog B :=
  fun w =>
    match m w with
    | Some (a, w') => k a w'
    | None => None
    end.

Notation "x <- m ;; k" := (bind m (fun x => k))
  (at level 61, m at next level, right associativity).

(** The object behind a reference. *)
Definition frame_at (r : nat) : Prog frame :=
  fun w =>
    match nth_error (frames w) r with
    | Some f => Some (f, w)
    | None => None
    end.

(** A new object; its reference is the next free cell. *)
Definition new_frame (f : frame) : Prog nat :=
  fun w =>
    Some (length (frames w),
          mkWorld (frames w ++ [f]) (wall_clock w) (random_state w)
            (database w)).

(** The object in cell [r] replaced. *)
Definition store_frame (r : nat) (f : frame) : Prog unit :=
  fun w =>
    if (r <? length (frames w))%nat
    then Some (tt,
               mkWorld (firstn r (frames w) ++ f :: skipn (S r) (frames w))
                 (wall_clock w) (random_state w) (database w))
    else None.

(** [datetime.now()] *)
Definition datetime_now : Prog timestamp :=
  fun w => Some (wall_clock w, w).

(** [df.copy()] *)
Definition copy (df : nat) : Prog nat :=
  f <- frame_at df ;; new_frame f.

(** An operation of pandas that returns a new frame. *)
Definition derived (df : nat) (op : frame -> option frame) : Prog nat :=
  f <- frame_at df ;;
  match op f with
  | Some f' => new_frame f'
  | None => fun _ => None
  end.

(** An assignment to columns of [df], in place. *)
Definition modify (df : nat) (op : frame -> option frame) : Prog unit :=
  f <- frame_at df ;;
  match op f with
  | Some f' => store_frame df f'
  | None => fun _ => None
  end.

Definition on_raw (op : list RawBar -> list RawBar) (f : frame)
    : option frame :=
  match f with
  | RawFrame rows => Some (RawFrame (op rows))
  | CleanFrame _ | MetricFrame _ => None
  end.

(** [pd.to_datetime(df['date'])]: the dates of the feed are timestamps
    already. *)
Definition to_datetime : frame -> option frame :=
  on_raw (fun rows => rows).

(** [pd.to_numeric(df[col], errors='coerce')] for the five numeric
    columns: a numeric cell and a null cell stay as they are. *)
Definition to_numeric : frame -> option frame :=
  on_raw (fun rows => rows).

Definition dropna_numeric_frame (f : frame) : option frame :=
  match f with
  | RawFrame rows => Some (CleanFrame (dropna_numeric rows))
  | CleanFrame _ | MetricFrame _ => None
  end.

Definition clean_data_at (df : nat) : Prog nat :=
  f <- frame_at df ;;
  if frame_empty f then ret df
  else
    df <- copy df ;;
    _ <- modify df to_datetime ;;
    df <- derived df (on_raw dropna_ohlc) ;;
    df_temp <- derived df (on_raw (filter close_positive)) ;;
    df <- copy df_temp ;;
    _ <- modify df to_numeric ;;
    result_df <- derived df dropna_numeric_frame ;;
    ret result_df.

(** [df.sort_values('date')] *)
Definition sort_by_date (f : frame) : option frame :=
  match f with
  | CleanFrame rows => Some (CleanFrame (sort_values date rows))
  | RawFrame _ | MetricFrame _ => None
  end.

Section StoreDerivation.

Variable np_sqrt : Q -> Q.

(** The five columns that [calculate_metrics] assigns to the sorted
    frame. *)
Definition metric_columns (df : list Bar) : list MetricRow :=
  let dr := map row_return df in
  assign_columns df dr
    (rolling 7 1 agg_mean (column close df))
    (rolling 252 1 agg_max (column high df))
    (rolling 252 1 agg_min (column low df))
    (volatility_column np_sqrt dr).

Definition assign_metrics (f : frame) : option frame :=
  match f with
  | CleanFrame rows => Some (MetricFrame (metric_columns rows))
  | RawFrame _ | MetricFrame _ => None
  end.

Definition calculate_metrics_at (df : nat) : Prog nat :=
  f <- frame_at df ;;
  if frame_empty f then ret df
  else
    df <- copy df ;;
    df <- derived df sort_by_date ;;
    _ <- modify df assign_metrics ;;
    ret df.

(** [df = clean_data(df)] and then [df = calculate_metrics(df)], as in
    [process_stock]. *)
Definition derive_at (df : nat) : Prog nat :=
  df <- clean_data_at df ;;
  calculate_metrics_at df.

(** The frame that [derive_at] returns for a frame of the feed: the
    argument itself when it is empty, the cleaned frame itself when that
    is empty. *)
Definition derived_frame (rows : list RawBar) : frame :=
  if empty rows then RawFrame []
  else if empty (clean_data rows) then CleanFrame []
       else MetricFrame (derive np_sqrt rows).

End StoreDerivation.

Definition last_year_frame (now : timestamp) (f : frame) : option frame :=
  match f with
  | MetricFrame rows => Some (MetricFrame (last_year now rows))
  | RawFrame _ | CleanFrame _ => None
  end.

Definition on_metrics (f : frame) : option frame :=
  match f with
  | MetricFrame rows => Some (MetricFrame rows)
  | RawFrame _ | CleanFrame _ => None
  end.

(** [get_summary_statistics] on the store: the copy, the dates made
    naive on the copy, the clock read, [df_year] selected, and the dict
    built as in [get_summary_statistics]. *)
Definition get_summary_statistics_at (df : nat) : Prog (option Summary) :=
  f <- frame_at df ;;
  if frame_empty f then ret None
  else
    df_copy <- copy df ;;
    _ <- modify df_copy on_metrics ;;
    now <- datetime_now ;;
    _ <- derived df_copy (last_year_frame now) ;;
    ret (get_summary_statistics now (metric_rows f)).

(** A call left [w] as it found it, new objects apart: every frame of
    [w] is in its cell unchanged, and so are the clock, the random
    generator and the database. *)
Definition untouched (w w' : World) : Prop :=
  firstn (length (frames w)) (frames w') = frames w
  /\ wall_clock w' = wall_clock w
  /\ random_state w' = random_state w
  /\ database w' = database w.

(** * Properties *)

(** ** Sorting *)

Section SortingFacts.
Context {A : Type} (key : A -> Z).

Lemma insert_sorted_perm (x : A) (l : list A) :
  Permutation (x :: l) (insert_sorted key x l).
Proof.
  induction l as [|y t IH]; simpl.
  - apply Permutation_refl.
  - destruct (key x <=? key y)%Z.
    + apply Permutation_refl.
    + eapply perm_trans; [apply perm_swap|].
      apply perm_skip, IH.
Qed.

Lemma sort_values_perm (l : list A) : Permutation l (sort_values key l).
Proof.
  induction l as [|x t IH]; simpl.
  - apply perm_nil.
  - eapply perm_trans; [apply perm_skip, IH|].
    apply insert_sorted_perm.
Qed.

Lemma insert_sorted_hdrel (a x : A) (l : list A) :
  key_le key a x -> HdRel (key_le key) a l -> HdRel (key_le key) a (insert_sorted key x l).
Proof.
  intros Hax Hal.
  destruct l as [|y t]; simpl.
  - constructor. exact Hax.
  - destruct (key x <=? key y)%Z.
    + constructor. exact Hax.
    + constructor. inversion Hal; assumption.
Qed.

Lemma insert_sorted_sorted (x : A) (l : list A) :
  Sorted (key_le key) l -> Sorted (key_le key) (insert_sorted key x l).
Proof.
  induction 1 as [|y t Hs IH Hd]; simpl.
  - repeat constructor.
  - destruct (key x <=? key y)%Z eqn:E.
    + constructor.
      * constructor; assumption.
      * constructor. apply Z.leb_le. exact E.
    + constructor.
      * exact IH.
      * apply insert_sorted_hdrel.
        -- apply Z.leb_gt in E. unfold key_le. lia.
        -- exact Hd.
Qed.

Lemma sort_values_sorted (l : list A) : Sorted (key_le key) (sort_values key l).
Proof.
  induction l as [|x t IH]; simpl.
  - constructor.
  - apply insert_sorted_sorted, IH.
Qed.

(** A frame that is already in key order is returned as it is. *)
Lemma sort_values_id (l : list A) :
  Sorted (key_le key) l -> sort_values key l = l.
Proof.
  induction 1 as [|x t Hs IH Hd]; simpl.
  - reflexivity.
  - rewrite IH.
    destruct Hd as [|y t' Hxy]; simpl.
    + reflexivity.
    + apply Z.leb_le in Hxy. rewrite Hxy. reflexivity.
Qed.

Lemma sort_values_length (l : list A) :
  length (sort_values key l) = length l.
Proof.
  symmetry. apply Permutation_length, sort_values_perm.
Qed.

Lemma sort_values_nil (l : list A) : sort_values key l = [] -> l = [].
Proof.
  intros H. apply length_zero_iff_nil.
  rewrite <- sort_values_length, H. reflexivity.
Qed.
End SortingFacts.

(** ** Windows *)

Lemma lastn_lastn_app {A : Type} (w : nat) (a b : list A) :
  lastn w (lastn w a ++ b) = lastn w (a ++ b).
Proof.
  unfold lastn.
  destruct (Nat.le_gt_cases (length a) w) as [Hle|Hgt].
  - replace (length a - w)%nat with 0%nat by lia. reflexivity.
  - rewrite !length_app, length_skipn.
    replace (length a - (length a - w) + length b - w)%nat
      with (length b) by lia.
    replace (length a + length b - w)%nat
      with (length b + (length a - w))%nat by lia.
    rewrite <- skipn_skipn.
    f_equal.
    rewrite skipn_app.
    replace (length a - w - length a)%nat with 0%nat by lia.
    reflexivity.
Qed.

Lemma lastn_firstn_trailing {A : Type} (w i : nat) (l : list A) :
  (i < length l)%nat -> lastn w (firstn (S i) l) = trailing w i l.
Proof.
  intros Hi. unfold lastn, trailing.
  rewrite length_firstn.
  replace (Nat.min (S i) (length l)) with (S i) by lia.
  rewrite skipn_firstn_comm.
  f_equal.
  lia.
Qed.

Lemma trailing_length {A : Type} (w i : nat) (l : list A) :
  (i < length l)%nat -> length (trailing w i l) = Nat.min w (S i).
Proof.
  intros Hi. unfold trailing.
  rewrite length_firstn, length_skipn. lia.
Qed.

(** While fewer than [w] rows have been seen the window is the whole
    prefix. *)
Lemma trailing_prefix {A : Type} (w i : nat) (l : list A) :
  (i < w)%nat -> trailing w i l = firstn (S i) l.
Proof.
  intros Hi. unfold trailing.
  replace (S i - w)%nat with 0%nat by lia.
  replace (Nat.min w (S i)) with (S i) by lia.
  reflexivity.
Qed.

Lemma trailing_map {A B : Type} (f : A -> B) (w i : nat) (l : list A) :
  trailing w i (map f l) = map f (trailing w i l).
Proof.
  unfold trailing. rewrite skipn_map, firstn_map. reflexivity.
Qed.

(** ** Rolling aggregates *)

Lemma rolling_from_length (w minp : nat) (agg : list Q -> fval) :
  forall xs hist, length (rolling_from w minp agg hist xs) = length xs.
Proof.
  induction xs as [|x rest IH]; intros hist; simpl.
  - reflexivity.
  - rewrite IH. reflexivity.
Qed.

Lemma rolling_from_nth_error (w minp : nat) (agg : list Q -> fval) :
  forall xs hist i,
    (i < length xs)%nat ->
    nth_error (rolling_from w minp agg hist xs) i
    = Some (window_value minp agg (lastn w (hist ++ firstn (S i) xs))).
Proof.
  induction xs as [|x rest IH]; intros hist i Hi; simpl in Hi.
  - lia.
  - destruct i as [|i]; simpl.
    + reflexivity.
    + rewrite IH by lia.
      rewrite lastn_lastn_app, <- app_assoc. reflexivity.
Qed.

Lemma rolling_length (w minp : nat) (agg : list Q -> fval) (col : list fval) :
  length (rolling w minp agg col) = length col.
Proof.
  unfold rolling. rewrite rolling_from_length, length_map. reflexivity.
Qed.

(** Row [i] of a rolling column is the aggregate of the trailing window
    that ends at row [i]. *)
Lemma rolling_nth_error (w minp : nat) (agg : list Q -> fval)
    (col : list fval) (i : nat) :
  (i < length col)%nat ->
  nth_error (rolling w minp agg col) i
  = Some (window_value minp agg (map prep_value (trailing w i col))).
Proof.
  intros Hi. unfold rolling.
  rewrite rolling_from_nth_error by (rewrite length_map; exact Hi).
  rewrite app_nil_l.
  rewrite lastn_firstn_trailing by (rewrite length_map; exact Hi).
  rewrite trailing_map. reflexivity.
Qed.

Lemma observations_finite (qs : list Q) :
  observations (map prep_value (map Fin qs)) = qs.
Proof.
  induction qs as [|q t IH]; simpl.
  - reflexivity.
  - rewrite IH. reflexivity.
Qed.

Lemma column_as_map (f : Bar -> Q) (df : list Bar) :
  column f df = map Fin (map f df).
Proof.
  unfold column. rewrite map_map. reflexivity.
Qed.

(** On a column without nulls a minimum period of 1 never bites. *)
Lemma window_value_finite (agg : list Q -> fval) (qs : list Q) :
  agg [] = NaN ->
  window_value 1 agg (map prep_value (map Fin qs)) = agg qs.
Proof.
  intros Hnil. unfold window_value.
  rewrite observations_finite.
  destruct qs as [|q t]; simpl.
  - symmetry. exact Hnil.
  - reflexivity.
Qed.

(** ** The rows of [calculate_metrics] *)

Lemma assign_columns_nth_error :
  forall df dr ma hi lo vol i r,
    nth_error (assign_columns df dr ma hi lo vol) i = Some r ->
    nth_error df i = Some (bar r)
    /\ nth_error dr i = Some (daily_return r)
    /\ nth_error ma i = Some (ma_7 r)
    /\ nth_error hi i = Some (week_52_high r)
    /\ nth_error lo i = Some (week_52_low r)
    /\ nth_error vol i = Some (volatility_score r).
Proof.
  induction df as [|b df IH];
    intros [|d dr] [|m ma] [|h hi] [|l lo] [|v vol] i r H;
    simpl in H; try (destruct i; discriminate H).
  destruct i as [|i]; simpl in *.
  - injection H as <-. simpl. repeat split.
  - apply IH, H.
Qed.

Lemma assign_columns_length :
  forall df dr ma hi lo vol,
    length dr = length df -> length ma = length df ->
    length hi = length df -> length lo = length df ->
    length vol = length df ->
    length (assign_columns df dr ma hi lo vol) = length df.
Proof.
  induction df as [|b df IH];
    intros [|d dr] [|m ma] [|h hi] [|l lo] [|v vol] H1 H2 H3 H4 H5;
    simpl in *; try discriminate; try reflexivity.
  f_equal. apply IH; lia.
Qed.

Section MetricsFacts.
Variable np_sqrt : Q -> Q.

Lemma volatility_column_length (dr : list fval) :
  length (volatility_column np_sqrt dr) = length dr.
Proof.
  unfold volatility_column. rewrite length_map, rolling_length.
  reflexivity.
Qed.

(** The frame keeps every row of its input. *)
Lemma calculate_metrics_length (df : list Bar) :
  length (calculate_metrics np_sqrt df) = length df.
Proof.
  unfold calculate_metrics.
  destruct df as [|b t]; [reflexivity|].
  cbv beta iota delta [empty].
  rewrite assign_columns_length;
    unfold column;
    rewrite ?volatility_column_length, ?rolling_length, ?length_map;
    try reflexivity.
  apply sort_values_length.
Qed.

(** Row [i] of the result, column by column, over the frame in date
    order. *)
Lemma calculate_metrics_row (df : list Bar) (i : nat) (r : MetricRow) :
  nth_error (calculate_metrics np_sqrt df) i = Some r ->
  let s := sort_values date df in
  nth_error s i = Some (bar r)
  /\ daily_return r = row_return (bar r)
  /\ ma_7 r = agg_mean (map close (trailing 7 i s))
  /\ week_52_high r = agg_max (map high (trailing 252 i s))
  /\ week_52_low r = agg_min (map low (trailing 252 i s))
  /\ volatility_score r
     = fmul (fmul (window_value 1 (agg_std np_sqrt)
                     (map prep_value (trailing 20 i (map row_return s))))
                  (Fin (np_sqrt 252)))
            (Fin 100).
Proof.
  intros H s.
  unfold calculate_metrics in H.
  destruct (empty df); [destruct i; discriminate H|].
  fold s in H.
  apply assign_columns_nth_error in H.
  destruct H as (Hb & Hd & Hm & Hh & Hl & Hv).
  assert (Hi : (i < length s)%nat)
    by (apply nth_error_Some; rewrite Hb; discriminate).
  split; [exact Hb|].
  split.
  { rewrite (map_nth_error row_return i s Hb) in Hd.
    injection Hd as <-. reflexivity. }
  unfold column in Hm, Hh, Hl.
  rewrite rolling_nth_error in Hm, Hh, Hl by (rewrite length_map; exact Hi).
  unfold volatility_column in Hv.
  rewrite nth_error_map, rolling_nth_error in Hv
    by (rewrite length_map; exact Hi).
  injection Hm as <-. injection Hh as <-. injection Hl as <-.
  simpl in Hv. injection Hv as <-.
  repeat split.
  - rewrite <- (map_map close Fin), !trailing_map.
    apply window_value_finite. reflexivity.
  - rewrite <- (map_map high Fin), !trailing_map.
    apply window_value_finite. reflexivity.
  - rewrite <- (map_map low Fin), !trailing_map.
    apply window_value_finite. reflexivity.
Qed.

End MetricsFacts.

(** ** What cleaning guarantees *)

Lemma dropna_numeric_In (df : list RawBar) (b : Bar) :
  In b (dropna_numeric df) -> exists r, In r df /\ to_bar r = Some b.
Proof.
  induction df as [|r rest IH]; simpl; [intros []|].
  destruct (to_bar r) as [b'|] eqn:E.
  - intros [<-|H].
    + exists r. auto.
    + destruct (IH H) as (r' & Hin & Hr'). exists r'. auto.
  - intros H. destruct (IH H) as (r' & Hin & Hr'). exists r'. auto.
Qed.

Lemma to_bar_close (r : RawBar) (b : Bar) :
  to_bar r = Some b -> raw_close r = Some (close b).
Proof.
  unfold to_bar.
  destruct (raw_open r), (raw_high r), (raw_low r), (raw_close r),
    (raw_volume r); try discriminate.
  intros H. injection H as <-. reflexivity.
Qed.

(** Cleaning keeps only rows whose close is positive. *)
Lemma clean_data_close_positive (raw : list RawBar) (b : Bar) :
  In b (clean_data raw) -> 0 < close b.
Proof.
  unfold clean_data. destruct (empty raw); [intros []|].
  intros H. apply dropna_numeric_In in H. destruct H as (r & Hin & Hb).
  apply filter_In in Hin. destruct Hin as [_ Hpos].
  unfold close_positive in Hpos.
  rewrite (to_bar_close _ _ Hb) in Hpos.
  apply Qnot_le_lt. intros Hle.
  apply Qle_bool_iff in Hle. rewrite Hle in Hpos. discriminate.
Qed.

Lemma row_return_not_null (b : Bar) : 0 < close b -> isna (row_return b) = false.
Proof.
  intros Hc. unfold row_return, fdiv_fin.
  destruct (Qeq_bool (open b) 0) eqn:E; [|reflexivity].
  apply Qeq_bool_eq in E.
  assert (H : 0 < close b - open b) by (rewrite E; unfold Qminus; rewrite Qplus_0_r; exact Hc).
  apply Qgt_alt in H. rewrite H. reflexivity.
Qed.

Lemma row_return_nonzero_open (b : Bar) :
  ~ open b == 0 -> row_return b = Fin ((close b - open b) / open b).
Proof.
  intros Ho. unfold row_return, fdiv_fin.
  destruct (Qeq_bool (open b) 0) eqn:E; [|reflexivity].
  apply Qeq_bool_eq in E. contradiction.
Qed.

Lemma agg_mean_not_null (l : list Q) : l <> [] -> isna (agg_mean l) = false.
Proof. destruct l; [congruence|reflexivity]. Qed.

Lemma agg_max_not_null (l : list Q) : l <> [] -> isna (agg_max l) = false.
Proof. destruct l; [congruence|reflexivity]. Qed.

Lemma agg_min_not_null (l : list Q) : l <> [] -> isna (agg_min l) = false.
Proof. destruct l; [congruence|reflexivity]. Qed.

Lemma trailing_map_nonempty {A B : Type} (f : A -> B) (w i : nat)
    (l : list A) :
  (0 < w)%nat -> (i < length l)%nat -> map f (trailing w i l) <> [].
Proof.
  intros Hw Hi Hnil.
  apply (f_equal (@length B)) in Hnil.
  rewrite length_map, trailing_length in Hnil by exact Hi.
  simpl in Hnil. lia.
Qed.

Lemma assign_columns_daily_return :
  forall df dr ma hi lo vol,
    length dr = length df -> length ma = length df ->
    length hi = length df -> length lo = length df ->
    length vol = length df ->
    map daily_return (assign_columns df dr ma hi lo vol) = dr.
Proof.
  induction df as [|b df IH];
    intros [|d dr] [|m ma] [|h hi] [|l lo] [|v vol] H1 H2 H3 H4 H5;
    simpl in *; try discriminate; try reflexivity.
  f_equal. apply IH; lia.
Qed.

Lemma calculate_metrics_daily_return (np_sqrt : Q -> Q) (df : list Bar) :
  map daily_return (calculate_metrics np_sqrt df)
  = map row_return (sort_values date df).
Proof.
  unfold calculate_metrics.
  destruct df as [|b t]; [reflexivity|].
  cbv beta iota delta [empty].
  apply assign_columns_daily_return;
    unfold column;
    rewrite ?volatility_column_length, ?rolling_length, ?length_map;
    reflexivity.
Qed.

(** ** C1: nulls in the derived columns *)

(** C1, as the code has it.  On every row of the metrics of a cleaned
    series [daily_return], [ma_7], [week_52_high] and [week_52_low] are not
    null, and [volatility_score] is not null on a row whose trailing 20-row
    window of [daily_return] holds at least two finite values. *)
Theorem derived_columns_not_null (np_sqrt : Q -> Q) (raw : list RawBar)
    (i : nat) (r : MetricRow) :
  let out := calculate_metrics np_sqrt (clean_data raw) in
  nth_error out i = Some r ->
  isna (daily_return r) = false
  /\ isna (ma_7 r) = false
  /\ isna (week_52_high r) = false
  /\ isna (week_52_low r) = false
  /\ ((2 <= length (observations
                     (map prep_value (trailing 20 i (map daily_return out)))))%nat
      -> isna (volatility_score r) = false).
Proof.
  intros out H.
  pose proof (calculate_metrics_row np_sqrt _ _ _ H) as Hrow.
  cbv zeta in Hrow.
  destruct Hrow as (Hb & Hd & Hm & Hh & Hl & Hv).
  assert (Hi : (i < length (sort_values date (clean_data raw)))%nat)
    by (apply nth_error_Some; rewrite Hb; discriminate).
  split.
  { rewrite Hd. apply row_return_not_null.
    apply (clean_data_close_positive raw).
    apply nth_error_In in Hb.
    eapply Permutation_in; [|exact Hb].
    apply Permutation_sym, sort_values_perm. }
  split; [rewrite Hm; apply agg_mean_not_null, trailing_map_nonempty; [lia|exact Hi]|].
  split; [rewrite Hh; apply agg_max_not_null, trailing_map_nonempty; [lia|exact Hi]|].
  split; [rewrite Hl; apply agg_min_not_null, trailing_map_nonempty; [lia|exact Hi]|].
  intros Hobs.
  unfold out in Hobs. rewrite calculate_metrics_daily_return in Hobs.
  rewrite Hv. unfold window_value, agg_std.
  destruct (length _ <? 1)%nat eqn:E1; [apply Nat.ltb_lt in E1; lia|].
  destruct (length _ <=? 1)%nat eqn:E2; [apply Nat.leb_le in E2; lia|].
  reflexivity.
Qed.

Lemma derived_columns_not_null_witness :
  exists r,
    nth_error (calculate_metrics sqrt_floor (clean_data two_days)) 1 = Some r
    /\ isna (volatility_score r) = false.
Proof.
  eexists. split; [reflexivity|].
  apply (derived_columns_not_null sqrt_floor two_days 1); [reflexivity|].
  vm_compute. lia.
Defined.

(** C1 as stated fails on the first row of any series: the sample
    standard deviation of a single return is NaN. *)
Lemma first_row_volatility_null :
  clean_data two_days <> []
  /\ map (fun r => isna (volatility_score r))
         (calculate_metrics sqrt_floor (clean_data two_days))
     = [true; false].
Proof.
  split; [discriminate|]. vm_compute. reflexivity.
Qed.

(** ** C6: the daily return *)

(** C6, as the code has it.  A cleaned row has a positive close; when its
    open is not zero its [daily_return] is the fraction
    [(close - open) / open], which is 0.05 for open 100 and close 105; on
    binary64 the same quotient is the double written [0.05]. *)
Theorem daily_return_fraction (np_sqrt : Q -> Q) (raw : list RawBar)
    (i : nat) (r : MetricRow) :
  nth_error (calculate_metrics np_sqrt (clean_data raw)) i = Some r ->
  0 < close (bar r)
  /\ (~ open (bar r) == 0 ->
      daily_return r = Fin ((close (bar r) - open (bar r)) / open (bar r)))
  /\ (open (bar r) == 100 -> close (bar r) == 105 ->
      feq (daily_return r) (Fin (5 # 100)))
  /\ float64_return 100 105 = float64_0_05.
Proof.
  intros H.
  pose proof (calculate_metrics_row np_sqrt _ _ _ H) as Hrow.
  cbv zeta in Hrow.
  destruct Hrow as (Hb & Hd & _).
  split.
  { apply (clean_data_close_positive raw).
    apply nth_error_In in Hb.
    eapply Permutation_in; [|exact Hb].
    apply Permutation_sym, sort_values_perm. }
  split.
  { intros Ho. rewrite Hd. apply row_return_nonzero_open, Ho. }
  split; [|reflexivity].
  intros Ho Hc.
  rewrite Hd, row_return_nonzero_open.
  - simpl. rewrite Ho, Hc. reflexivity.
  - rewrite Ho. discriminate.
Qed.

Lemma daily_return_fraction_witness :
  exists r,
    nth_error (calculate_metrics sqrt_floor (clean_data two_days)) 0 = Some r
    /\ feq (daily_return r) (Fin (5 # 100)).
Proof.
  eexists. split; [reflexivity|].
  apply (daily_return_fraction sqrt_floor two_days 0); reflexivity.
Defined.

(** A bar that opened at 0 survives cleaning, which tests the close only:
    its open is not positive and its return is an infinity, not a
    fraction. *)
Lemma zero_open_survives_cleaning :
  clean_data [raw_day 1 0 2 0 1] = [day 1 0 2 0 1]
  /\ ~ 0 < open (day 1 0 2 0 1)
  /\ map daily_return (calculate_metrics sqrt_floor
                         (clean_data [raw_day 1 0 2 0 1])) = [PInf].
Proof.
  split; [reflexivity|]. split; [|reflexivity].
  intros H. discriminate H.
Qed.

(** ** C7: the 7-row moving average *)

(** C7.  On a series in date order [ma_7] at row [i] is the sum of [close]
    over the rows [i - 6 .. i] (from row 0 when [i < 6]) divided by their
    number; closes 10, 20, 30 give 10, 15, 20. *)
Theorem ma_7_trailing_mean (np_sqrt : Q -> Q) :
  (forall (df : list Bar) (i : nat) (r : MetricRow),
      Sorted (key_le date) df ->
      nth_error (calculate_metrics np_sqrt df) i = Some r ->
      nth_error df i = Some (bar r)
      /\ length (trailing 7 i df) = Nat.min 7 (S i)
      /\ ma_7 r = Fin (Qsum (map close (trailing 7 i df))
                       / inject_Z (Z.of_nat (Nat.min 7 (S i)))))
  /\ (forall b1 b2 b3 : Bar,
         Sorted (key_le date) [b1; b2; b3] ->
         close b1 == 10 -> close b2 == 20 -> close b3 == 30 ->
         Forall2 feq (map ma_7 (calculate_metrics np_sqrt [b1; b2; b3]))
                     [Fin 10; Fin 15; Fin 20]).
Proof.
  assert (General : forall df i r,
      Sorted (key_le date) df ->
      nth_error (calculate_metrics np_sqrt df) i = Some r ->
      nth_error df i = Some (bar r)
      /\ length (trailing 7 i df) = Nat.min 7 (S i)
      /\ ma_7 r = Fin (Qsum (map close (trailing 7 i df))
                       / inject_Z (Z.of_nat (Nat.min 7 (S i))))).
  { intros df i r Hs H.
    pose proof (calculate_metrics_row np_sqrt _ _ _ H) as Hrow.
    cbv zeta in Hrow. rewrite (sort_values_id date df Hs) in Hrow.
    destruct Hrow as (Hb & _ & Hm & _).
    assert (Hi : (i < length df)%nat)
      by (apply nth_error_Some; rewrite Hb; discriminate).
    split; [exact Hb|].
    split; [apply trailing_length, Hi|].
    rewrite Hm.
    pose proof (trailing_length 7 i df Hi) as Hlen.
    destruct (trailing 7 i df) as [|b t] eqn:E; [simpl in Hlen; lia|].
    unfold agg_mean, Qmean, Qlen. simpl map.
    rewrite <- Hlen. simpl length. rewrite length_map. reflexivity. }
  split; [exact General|].
  intros b1 b2 b3 Hs H1 H2 H3.
  pose proof (calculate_metrics_length np_sqrt [b1; b2; b3]) as Hlen.
  destruct (calculate_metrics np_sqrt [b1; b2; b3])
    as [|r1 [|r2 [|r3 [|r4 rest]]]] eqn:E; try discriminate Hlen.
  assert (G1 := General [b1; b2; b3] 0%nat r1 Hs).
  assert (G2 := General [b1; b2; b3] 1%nat r2 Hs).
  assert (G3 := General [b1; b2; b3] 2%nat r3 Hs).
  rewrite E in G1, G2, G3.
  destruct (G1 eq_refl) as (_ & _ & M1).
  destruct (G2 eq_refl) as (_ & _ & M2).
  destruct (G3 eq_refl) as (_ & _ & M3).
  simpl map. rewrite M1, M2, M3.
  unfold trailing, Qsum. simpl.
  repeat constructor; simpl; rewrite ?H1, ?H2, ?H3; reflexivity.
Qed.

Lemma ma_7_trailing_mean_witness :
  exists r,
    nth_error (calculate_metrics sqrt_floor
                 [day 1 10 10 10 10; day 2 20 20 20 20; day 3 30 30 30 30]) 2
    = Some r
    /\ ma_7 r = Fin ((10 + (20 + (30 + 0))) / 3).
Proof.
  eexists. split; [reflexivity|].
  apply (proj1 (ma_7_trailing_mean sqrt_floor)
           [day 1 10 10 10 10; day 2 20 20 20 20; day 3 30 30 30 30] 2%nat).
  - repeat constructor; unfold key_le; simpl; lia.
  - reflexivity.
Defined.

(** ** Extrema of a window *)

Lemma Qmax_choice (x y : Q) : Qmax x y = x \/ Qmax x y = y.
Proof.
  unfold Qmax, GenericMinMax.gmax. destruct (x ?= y); auto.
Qed.

Lemma Qmin_choice (x y : Q) : Qmin x y = x \/ Qmin x y = y.
Proof.
  unfold Qmin, GenericMinMax.gmin. destruct (x ?= y); auto.
Qed.

Lemma fold_max_spec (t : list Q) :
  forall x,
    (fold_left Qmax t x = x \/ In (fold_left Qmax t x) t)
    /\ x <= fold_left Qmax t x
    /\ Forall (fun y => y <= fold_left Qmax t x) t.
Proof.
  induction t as [|y t IH]; intros x; simpl.
  - split; [left; reflexivity|]. split; [apply Qle_refl|constructor].
  - destruct (IH (Qmax x y)) as (Hin & Hle & Hall).
    split.
    { destruct Hin as [Heq|Hin]; [|right; right; exact Hin].
      rewrite Heq. destruct (Qmax_choice x y) as [E|E]; rewrite E; auto. }
    split.
    { eapply Qle_trans; [apply Q.le_max_l|exact Hle]. }
    constructor; [|exact Hall].
    eapply Qle_trans; [apply Q.le_max_r|exact Hle].
Qed.

Lemma fold_min_spec (t : list Q) :
  forall x,
    (fold_left Qmin t x = x \/ In (fold_left Qmin t x) t)
    /\ fold_left Qmin t x <= x
    /\ Forall (fun y => fold_left Qmin t x <= y) t.
Proof.
  induction t as [|y t IH]; intros x; simpl.
  - split; [left; reflexivity|]. split; [apply Qle_refl|constructor].
  - destruct (IH (Qmin x y)) as (Hin & Hle & Hall).
    split.
    { destruct Hin as [Heq|Hin]; [|right; right; exact Hin].
      rewrite Heq. destruct (Qmin_choice x y) as [E|E]; rewrite E; auto. }
    split.
    { eapply Qle_trans; [exact Hle|apply Q.le_min_l]. }
    constructor; [|exact Hall].
    eapply Qle_trans; [exact Hle|apply Q.le_min_r].
Qed.

Lemma agg_max_is_maximum (l : list Q) :
  l <> [] -> exists m, agg_max l = Fin m /\ is_maximum m l.
Proof.
  destruct l as [|x t]; [congruence|]. intros _.
  exists (fold_left Qmax t x).
  destruct (fold_max_spec t x) as (Hin & Hle & Hall).
  split; [reflexivity|]. split.
  - destruct Hin as [->|Hin]; [left; reflexivity|right; exact Hin].
  - constructor; assumption.
Qed.

Lemma agg_min_is_minimum (l : list Q) :
  l <> [] -> exists m, agg_min l = Fin m /\ is_minimum m l.
Proof.
  destruct l as [|x t]; [congruence|]. intros _.
  exists (fold_left Qmin t x).
  destruct (fold_min_spec t x) as (Hin & Hle & Hall).
  split; [reflexivity|]. split.
  - destruct Hin as [->|Hin]; [left; reflexivity|right; exact Hin].
  - constructor; assumption.
Qed.

Lemma In_skipn {A : Type} (n : nat) (l : list A) (x : A) :
  In x (skipn n l) -> In x l.
Proof.
  intros H. rewrite <- (firstn_skipn n l). apply in_or_app. right. exact H.
Qed.

(** The window lies inside the prefix that ends at the same row. *)
Lemma trailing_in_prefix {A : Type} (w i : nat) (l : list A) (x : A) :
  (i < length l)%nat -> In x (trailing w i l) -> In x (firstn (S i) l).
Proof.
  intros Hi H. rewrite <- lastn_firstn_trailing in H by exact Hi.
  apply In_skipn in H. exact H.
Qed.

(** The current row is in its window. *)
Lemma trailing_has_current {A : Type} (w i : nat) (l : list A) (x : A) :
  (0 < w)%nat -> nth_error l i = Some x -> In x (trailing w i l).
Proof.
  intros Hw Hx.
  assert (Hi : (i < length l)%nat)
    by (apply nth_error_Some; rewrite Hx; discriminate).
  rewrite <- lastn_firstn_trailing by exact Hi.
  unfold lastn. rewrite length_firstn.
  replace (Nat.min (S i) (length l)) with (S i) by lia.
  apply (nth_error_In _ (i - (S i - w))).
  rewrite nth_error_skipn, nth_error_firstn.
  replace (S i - w + (i - (S i - w)))%nat with i by lia.
  replace (i <? S i)%nat with true by (symmetry; apply Nat.ltb_lt; lia).
  exact Hx.
Qed.

Lemma In_firstn_nth_error {A : Type} (n : nat) (l : list A) (x : A) :
  In x (firstn n l) -> exists j, (j < n)%nat /\ nth_error l j = Some x.
Proof.
  intros H. apply In_nth_error in H. destruct H as [j Hj].
  rewrite nth_error_firstn in Hj.
  destruct (j <? n)%nat eqn:E; [|discriminate].
  apply Nat.ltb_lt in E. exists j. auto.
Qed.

(** ** C8: the 252-row extrema *)

(** C8, as the code has it.  On a series in date order [week_52_high] is
    the maximum of [high] and [week_52_low] the minimum of [low] over the
    rows [i - 251 .. i] (from row 0 when [i < 251]).  When the highs never
    decrease [week_52_high] is also the maximum over all rows up to [i];
    [week_52_low] is the minimum over all rows up to [i] while [i < 252]. *)
Theorem week_52_window_extrema (np_sqrt : Q -> Q) (df : list Bar) (i : nat)
    (r : MetricRow) :
  Sorted (key_le date) df ->
  nth_error (calculate_metrics np_sqrt df) i = Some r ->
  exists hi lo,
    week_52_high r = Fin hi /\ week_52_low r = Fin lo
    /\ length (trailing 252 i df) = Nat.min 252 (S i)
    /\ is_maximum hi (map high (trailing 252 i df))
    /\ is_minimum lo (map low (trailing 252 i df))
    /\ ((forall j k bj bk, (j <= k)%nat ->
            nth_error df j = Some bj -> nth_error df k = Some bk ->
            high bj <= high bk) ->
        is_maximum hi (map high (firstn (S i) df)))
    /\ ((i < 252)%nat -> is_minimum lo (map low (firstn (S i) df))).
Proof.
  intros Hs H.
  pose proof (calculate_metrics_row np_sqrt _ _ _ H) as Hrow.
  cbv zeta in Hrow. rewrite (sort_values_id date df Hs) in Hrow.
  destruct Hrow as (Hb & _ & _ & Hh & Hl & _).
  assert (Hi : (i < length df)%nat)
    by (apply nth_error_Some; rewrite Hb; discriminate).
  destruct (agg_max_is_maximum (map high (trailing 252 i df)))
    as (hi & Ehi & Hmax); [apply trailing_map_nonempty; [lia|exact Hi]|].
  destruct (agg_min_is_minimum (map low (trailing 252 i df)))
    as (lo & Elo & Hmin); [apply trailing_map_nonempty; [lia|exact Hi]|].
  exists hi, lo.
  split; [congruence|]. split; [congruence|].
  split; [apply trailing_length, Hi|].
  split; [exact Hmax|]. split; [exact Hmin|].
  split.
  - intros Hmono. destruct Hmax as [Hin Hall]. split.
    + apply in_map_iff in Hin. destruct Hin as (b & Eb & Hin).
      apply in_map_iff. exists b. split; [exact Eb|].
      apply (trailing_in_prefix 252); assumption.
    + apply Forall_forall. intros y Hy.
      apply in_map_iff in Hy. destruct Hy as (b & <- & Hinb).
      apply In_firstn_nth_error in Hinb. destruct Hinb as (j & Hj & Hnth).
      apply Qle_trans with (high (bar r)).
      * apply (Hmono j i); [lia|exact Hnth|exact Hb].
      * rewrite Forall_forall in Hall. apply Hall.
        apply in_map, (trailing_has_current 252); [lia|exact Hb].
  - intros Hlt. rewrite <- (trailing_prefix 252 i df Hlt). exact Hmin.
Qed.

Lemma week_52_window_extrema_witness :
  exists hi lo,
    map week_52_high (calculate_metrics sqrt_floor three_days)
    = [Fin 12; Fin 15; Fin hi]
    /\ map week_52_low (calculate_metrics sqrt_floor three_days)
       = [Fin 9; Fin 9; Fin lo]
    /\ is_maximum hi [12; 15; 16] /\ is_minimum lo [9; 10; 8].
Proof.
  destruct (week_52_window_extrema sqrt_floor three_days 2%nat
              (nth 2 (calculate_metrics sqrt_floor three_days) null_row))
    as (hi & lo & Hh & Hl & _ & Hmax & Hmin & _).
  - repeat constructor; unfold key_le; simpl; lia.
  - reflexivity.
  - exists hi, lo.
    injection Hh as <-. injection Hl as <-.
    split; [reflexivity|]. split; [reflexivity|].
    split; [exact Hmax|exact Hmin].
Defined.

(** A frame built row by row from its index is in date order when the
    dates do not decrease. *)
Lemma map_seq_sorted (f : nat -> Bar) :
  (forall k, (date (f k) <= date (f (S k)))%Z) ->
  forall n s, Sorted (key_le date) (map f (seq s n)).
Proof.
  intros Hstep. induction n as [|n IH]; intros s; simpl.
  - constructor.
  - constructor; [apply IH|].
    destruct n; simpl; constructor. apply Hstep.
Qed.

Lemma rising_year_row (j : nat) (b : Bar) :
  nth_error rising_year j = Some b ->
  high b = inject_Z (Z.of_nat (S j)) /\ low b = inject_Z (Z.of_nat (S j)).
Proof.
  unfold rising_year. rewrite nth_error_map. intros H.
  destruct (nth_error (seq 0 253) j) as [k|] eqn:E; [|discriminate].
  assert (Hj : (j < length (seq 0 253))%nat)
    by (apply nth_error_Some; rewrite E; discriminate).
  rewrite length_seq in Hj.
  apply (nth_error_nth _ _ 0%nat) in E. rewrite seq_nth in E by exact Hj.
  simpl in E. subst k.
  simpl in H. injection H as <-. split; reflexivity.
Qed.

Lemma assign_columns_week_52_low :
  forall df dr ma hi lo vol,
    length dr = length df -> length ma = length df ->
    length hi = length df -> length lo = length df ->
    length vol = length df ->
    map week_52_low (assign_columns df dr ma hi lo vol) = lo.
Proof.
  induction df as [|b df IH];
    intros [|d dr] [|m ma] [|h hi] [|l lo] [|v vol] H1 H2 H3 H4 H5;
    simpl in *; try discriminate; try reflexivity.
  f_equal. apply IH; lia.
Qed.

Lemma calculate_metrics_week_52_low (np_sqrt : Q -> Q) (df : list Bar) :
  map week_52_low (calculate_metrics np_sqrt df)
  = rolling 252 1 agg_min (column low (sort_values date df)).
Proof.
  unfold calculate_metrics.
  destruct df as [|b t]; [reflexivity|].
  cbv beta iota delta [empty].
  apply assign_columns_week_52_low;
    unfold column;
    rewrite ?volatility_column_length, ?rolling_length, ?length_map;
    reflexivity.
Qed.

(** Past 252 rows the window has forgotten the early lows: on a series
    whose highs and lows rise every day the last [week_52_low] is the low
    of row 1, while the minimum over all 253 rows is the low of row 0. *)
Lemma week_52_low_forgets_first_row :
  Sorted (key_le date) rising_year
  /\ (forall j k bj bk, (j <= k)%nat ->
         nth_error rising_year j = Some bj ->
         nth_error rising_year k = Some bk -> high bj <= high bk)
  /\ nth_error (map week_52_low (calculate_metrics sqrt_floor rising_year)) 252
     = Some (Fin 2)
  /\ agg_min (map low (firstn 253 rising_year)) = Fin 1.
Proof.
  split.
  { apply map_seq_sorted. intros k. simpl. lia. }
  split.
  { intros j k bj bk Hjk Hj Hk.
    apply rising_year_row in Hj, Hk.
    destruct Hj as [-> _], Hk as [-> _].
    rewrite <- Zle_Qle. lia. }
  split; [|vm_compute; reflexivity].
  rewrite calculate_metrics_week_52_low.
  vm_compute. reflexivity.
Qed.

(** ** C9: the volatility of a window without spread *)

Lemma Qlen_cons (x : Q) (l : list Q) : Qlen (x :: l) == Qlen l + 1.
Proof.
  unfold Qlen.
  replace (Z.of_nat (length (x :: l))) with (Z.of_nat (length l) + 1)%Z
    by (simpl length; lia).
  rewrite inject_Z_plus. reflexivity.
Qed.

Lemma Qsum_constant (c : Q) (l : list Q) :
  Forall (fun x => x == c) l -> Qsum l == Qlen l * c.
Proof.
  induction 1 as [|x t Hx Ht IH].
  - unfold Qlen. simpl. ring.
  - rewrite Qlen_cons. simpl. fold (Qsum t). rewrite IH, Hx. ring.
Qed.

Lemma Qsum_zero (l : list Q) : Forall (fun x => x == 0) l -> Qsum l == 0.
Proof.
  intros H. rewrite (Qsum_constant 0 l H). ring.
Qed.

Lemma Qmean_constant (c : Q) (l : list Q) :
  l <> [] -> Forall (fun x => x == c) l -> Qmean l == c.
Proof.
  intros Hne H. unfold Qmean. rewrite (Qsum_constant c l H).
  field.
  destruct l as [|x t]; [congruence|].
  unfold Qlen, Qeq. simpl Qnum. simpl Qden. simpl length. lia.
Qed.

(** Observations that are all the same number have sample variance 0. *)
Lemma sample_var_constant (c : Q) (l : list Q) :
  l <> [] -> Forall (fun x => x == c) l -> sample_var l == 0.
Proof.
  intros Hne H. unfold sample_var.
  rewrite Qsum_zero.
  - unfold Qdiv. ring.
  - apply Forall_forall. intros y Hy.
    apply in_map_iff in Hy. destruct Hy as (x & <- & Hx).
    rewrite Forall_forall in H.
    rewrite (H x Hx), (Qmean_constant c l Hne).
    + ring.
    + apply Forall_forall. exact H.
Qed.

Lemma sqrt_floor_zero (q : Q) : q == 0 -> sqrt_floor q == 0.
Proof.
  unfold Qeq, sqrt_floor. simpl. intros H.
  rewrite Z.mul_1_r in H. rewrite H. reflexivity.
Qed.

(** C9, as the code has it.  When the finite returns in the trailing 20-row
    window of a row are at least two and all equal, the row's
    [volatility_score] is 0, for any square root that is 0 at 0. *)
Theorem constant_window_zero_volatility (np_sqrt : Q -> Q) (df : list Bar)
    (i : nat) (r : MetricRow) (c : Q) :
  let out := calculate_metrics np_sqrt df in
  let obs :=
    observations (map prep_value (trailing 20 i (map daily_return out))) in
  (forall q, q == 0 -> np_sqrt q == 0) ->
  nth_error out i = Some r ->
  (2 <= length obs)%nat ->
  Forall (fun x => x == c) obs ->
  feq (volatility_score r) (Fin 0).
Proof.
  intros out obs Hsqrt H Hlen Hconst.
  pose proof (calculate_metrics_row np_sqrt _ _ _ H) as Hrow.
  cbv zeta in Hrow.
  destruct Hrow as (_ & _ & _ & _ & _ & Hv).
  unfold obs, out in Hlen, Hconst.
  rewrite calculate_metrics_daily_return in Hlen, Hconst.
  assert (Hne : observations
            (map prep_value
               (trailing 20 i (map row_return (sort_values date df)))) <> [])
    by (intros E; rewrite E in Hlen; simpl in Hlen; lia).
  rewrite Hv. unfold window_value, agg_std.
  destruct (length _ <? 1)%nat eqn:E1; [apply Nat.ltb_lt in E1; lia|].
  destruct (length _ <=? 1)%nat eqn:E2; [apply Nat.leb_le in E2; lia|].
  simpl.
  rewrite (Hsqrt _ (sample_var_constant c _ Hne Hconst)).
  ring.
Qed.

Lemma constant_window_zero_volatility_witness :
  feq (volatility_score (nth 2 (calculate_metrics sqrt_floor flat_days)
                           null_row))
      (Fin 0).
Proof.
  apply (constant_window_zero_volatility sqrt_floor flat_days 2 _ (5 # 100)).
  - exact sqrt_floor_zero.
  - reflexivity.
  - vm_compute. lia.
  - vm_compute. repeat constructor.
Defined.

(** At the first row the window holds one return, which has no spread, and
    the score is NaN, not 0. *)
Lemma single_return_volatility_nan :
  trailing 20 0 (map daily_return (calculate_metrics sqrt_floor flat_days))
  = [Fin (5 # 100)]
  /\ map volatility_score (firstn 1 (calculate_metrics sqrt_floor flat_days))
     = [NaN]
  /\ ~ feq NaN (Fin 0).
Proof.
  split; [reflexivity|]. split; [reflexivity|]. intros H. exact H.
Qed.

(** ** C2: the uniqueness constraint *)

Lemma insert_rows_collision :
  forall df table r r0,
    In r df -> In r0 table -> same_key r r0 = true ->
    exists sym d, insert_rows table df = Raised (IntegrityError sym d).
Proof.
  induction df as [|r1 rest IH]; intros table r r0 Hr Hr0 Hkey.
  - destruct Hr.
  - simpl. destruct (existsb (same_key r1) table) eqn:E.
    + eauto.
    + destruct Hr as [->|Hr].
      * assert (Hex : existsb (same_key r) table = true)
          by (apply existsb_exists; eauto).
        congruence.
      * apply (IH (table ++ [r1]) r r0 Hr); [|exact Hkey].
        apply in_or_app. left. exact Hr0.
Qed.

(** C2.  When the table holds a row with the (symbol, date) of a row of the
    frame, [save_stock_data] raises the integrity error of the uniqueness
    constraint and the database is what it was; appending that row alone
    reports its own key. *)
Theorem save_duplicate_key_raises (db : StockDatabase) (df : list MetricRow)
    (r r0 : MetricRow) :
  In r0 (stock_data db) ->
  In r df ->
  same_key r r0 = true ->
  (exists sym d,
      save_stock_data db df = (Raised (IntegrityError sym d), db))
  /\ save_stock_data db [r]
     = (Raised (IntegrityError (symbol (bar r)) (date (bar r))), db).
Proof.
  intros Hr0 Hr Hkey. split.
  - unfold save_stock_data.
    destruct (insert_rows_collision df (stock_data db) r r0 Hr Hr0 Hkey)
      as (sym & d & E).
    rewrite E. eauto.
  - unfold save_stock_data. simpl.
    assert (Hex : existsb (same_key r) (stock_data db) = true)
      by (apply existsb_exists; eauto).
    rewrite Hex. reflexivity.
Qed.

Lemma save_duplicate_key_raises_witness :
  save_stock_data (mkDatabase [] [stored_day]) [refetched_day]
  = (Raised (IntegrityError "TCS.NS" 1%Z), mkDatabase [] [stored_day]).
Proof.
  apply (save_duplicate_key_raises (mkDatabase [] [stored_day])
           [refetched_day] refetched_day stored_day).
  - left. reflexivity.
  - left. reflexivity.
  - reflexivity.
Defined.

(** ** C4: what is saved is what is read *)

Lemma same_key_dates (r r' : MetricRow) :
  row_date r <> row_date r' -> same_key r r' = false.
Proof.
  intros H. unfold same_key. apply andb_false_iff. right.
  apply Z.eqb_neq. exact H.
Qed.

Lemma insert_rows_fresh :
  forall df table,
    (forall r r', In r df -> In r' table -> same_key r r' = false) ->
    NoDup (map row_date df) ->
    insert_rows table df = Returned (table ++ df).
Proof.
  induction df as [|r rest IH]; intros table Hfresh Hnd; simpl.
  - rewrite app_nil_r. reflexivity.
  - inversion Hnd as [|d ds Hnotin Hnd']. subst.
    destruct (existsb (same_key r) table) eqn:E.
    + apply existsb_exists in E. destruct E as (r' & Hin & Hk).
      rewrite (Hfresh r r') in Hk; [discriminate|left; reflexivity|exact Hin].
    + rewrite IH.
      * rewrite <- app_assoc. reflexivity.
      * intros x x' Hx Hx'. apply in_app_or in Hx'.
        destruct Hx' as [Hx'|[<-|[]]].
        -- apply Hfresh; [right; exact Hx|exact Hx'].
        -- apply same_key_dates. intros Heq. apply Hnotin.
           rewrite <- Heq. apply in_map. exact Hx.
      * exact Hnd'.
Qed.

Lemma filter_all {A : Type} (p : A -> bool) (l : list A) :
  Forall (fun x => p x = true) l -> filter p l = l.
Proof.
  induction 1 as [|x t Hx Ht IH]; simpl.
  - reflexivity.
  - rewrite Hx, IH. reflexivity.
Qed.

(** C4.  Rows with distinct dates saved into an empty table are all
    accepted, and reading a symbol back gives its rows in ascending date
    order with the (date, close) pairs that were written: all of them when
    every row carries that symbol. *)
Theorem save_then_get_all (db : StockDatabase) (df : list MetricRow)
    (sym : string) :
  stock_data db = [] ->
  NoDup (map row_date df) ->
  exists db',
    save_stock_data db df = (Returned tt, db')
    /\ Sorted (key_le row_date) (get_all_stock_data db' sym)
    /\ Permutation (map date_close (get_all_stock_data db' sym))
                   (map date_close (filter (has_symbol sym) df))
    /\ (Forall (fun r => has_symbol sym r = true) df ->
        Permutation (map date_close (get_all_stock_data db' sym))
                    (map date_close df)).
Proof.
  intros Hempty Hnd.
  exists (mkDatabase (companies db) df).
  assert (Hperm :
    Permutation
      (map date_close
         (get_all_stock_data (mkDatabase (companies db) df) sym))
      (map date_close (filter (has_symbol sym) df))).
  { unfold get_all_stock_data. simpl stock_data.
    apply Permutation_map, Permutation_sym.
    apply (sort_values_perm (fun r => date (bar r))). }
  split.
  { unfold save_stock_data. rewrite Hempty.
    rewrite insert_rows_fresh; [reflexivity| |exact Hnd].
    intros r r' _ []. }
  split.
  { unfold get_all_stock_data.
    apply (sort_values_sorted (fun r => date (bar r))). }
  split; [exact Hperm|].
  intros Hall.
  rewrite (filter_all (has_symbol sym) df Hall) in Hperm. exact Hperm.
Qed.

Lemma save_then_get_all_witness :
  exists db',
    save_stock_data init_database [later_day; stored_day] = (Returned tt, db')
    /\ map date_close (get_all_stock_data db' "TCS.NS")
       = [(1%Z, 105); (2%Z, 110)].
Proof.
  destruct (save_then_get_all init_database [later_day; stored_day] "TCS.NS")
    as (db' & Hsave & _).
  - reflexivity.
  - simpl. repeat constructor; simpl; intuition discriminate.
  - exists db'. split; [exact Hsave|].
    injection Hsave as <-. reflexivity.
Defined.

(** ** C3 and C10: a fetch that brings nothing *)

Lemma process_stock_nothing_fetched (np_sqrt : Q -> Q)
    (yf_history : string -> string -> option (list RawBar))
    (now : timestamp) (sym period : string) :
  fetch_stock_data yf_history sym period = [] ->
  process_stock np_sqrt yf_history now sym period = ([], None).
Proof.
  intros H. unfold process_stock. rewrite H. reflexivity.
Qed.

(** C3.  With no cached row for the symbol and an empty fetch, the handler
    raises the 404 whose detail names the symbol, and the database is
    unchanged. *)
Theorem get_stock_data_no_data (np_sqrt : Q -> Q)
    (yf_history : string -> string -> option (list RawBar))
    (now : timestamp) (db : StockDatabase) (sym : string) (days : Z) :
  get_all_stock_data db sym = [] ->
  fetch_stock_data yf_history sym "1y" = [] ->
  get_stock_data np_sqrt yf_history now db sym days
  = (HTTPException 404 ("No data found for symbol: " ++ sym), db).
Proof.
  intros Hcache Hfetch. unfold get_stock_data.
  rewrite Hcache. simpl empty. cbv iota.
  rewrite (process_stock_nothing_fetched _ _ _ _ _ Hfetch).
  reflexivity.
Qed.

Lemma get_stock_data_no_data_witness :
  get_stock_data sqrt_floor example_feed 0%Z (mkDatabase [] [stored_day])
    "INFY.NS" 30%Z
  = (HTTPException 404 "No data found for symbol: INFY.NS",
     mkDatabase [] [stored_day]).
Proof.
  apply (get_stock_data_no_data sqrt_floor example_feed 0%Z
           (mkDatabase [] [stored_day]) "INFY.NS" 30%Z); reflexivity.
Defined.

Lemma refresh_empty_fetch_falls_back (np_sqrt : Q -> Q)
    (yf_history : string -> string -> option (list RawBar))
    (now : timestamp) (db : StockDatabase) (sym : string) :
  get_all_stock_data db sym <> [] ->
  fetch_stock_data yf_history sym "1y" = [] ->
  load_stock_data np_sqrt yf_history now db sym true
  = match get_summary_statistics_read_back now (get_all_stock_data db sym)
    with
    | Returned summary =>
        (Returned (get_all_stock_data db sym, summary), db)
    | Raised e => (Raised e, db)
    end.
Proof.
  intros Hcache Hfetch. unfold load_stock_data.
  rewrite (process_stock_nothing_fetched _ _ _ _ _ Hfetch).
  simpl negb. cbv iota.
  unfold load_from_cache.
  destruct (get_all_stock_data db sym) as [|r t]; [congruence|].
  reflexivity.
Qed.

(** C10 at the input where the code departs from it.  The cache holds one
    row for the symbol, so its [volatility_score] is NULL; the refresh
    fetches nothing and does not clear, the database is unchanged, but
    the summary of the cached frame raises the [TypeError] of
    [float(None)] and no row is returned.  The same row in a fresh frame
    gets its summary. *)
Theorem refresh_one_row_cache_raises :
  load_stock_data sqrt_floor outage_feed 0%Z (mkDatabase [] [stored_day])
    "TCS.NS" true
  = (Raised (TypeError float_of_none), mkDatabase [] [stored_day])
  /\ get_all_stock_data (mkDatabase [] [stored_day]) "TCS.NS" = [stored_day]
  /\ fetch_stock_data outage_feed "TCS.NS" "1y" = []
  /\ get_summary_statistics 0%Z [stored_day] <> None.
Proof.
  split; [|split; [reflexivity|split; [reflexivity|discriminate]]].
  rewrite refresh_empty_fetch_falls_back; [reflexivity|discriminate|reflexivity].
Qed.

(** ** C5: the derivation depends on its input only *)

Lemma frame_at_last (fs : list frame) (f : frame) (c : timestamp) (g : Z)
    (d : StockDatabase) :
  frame_at (length fs) (mkWorld (fs ++ [f]) c g d)
  = Some (f, mkWorld (fs ++ [f]) c g d).
Proof.
  unfold frame_at. cbn [frames].
  rewrite nth_error_app2, Nat.sub_diag by lia. reflexivity.
Qed.

Lemma copy_cell (fs : list frame) (r : nat) (f : frame) (c : timestamp)
    (g : Z) (d : StockDatabase) :
  nth_error fs r = Some f ->
  copy r (mkWorld fs c g d) = Some (length fs, mkWorld (fs ++ [f]) c g d).
Proof.
  intros H. unfold copy, bind, frame_at. cbn [frames]. rewrite H.
  reflexivity.
Qed.

Lemma copy_last (fs : list frame) (f : frame) (c : timestamp) (g : Z)
    (d : StockDatabase) :
  copy (length fs) (mkWorld (fs ++ [f]) c g d)
  = Some (length (fs ++ [f]), mkWorld ((fs ++ [f]) ++ [f]) c g d).
Proof.
  apply copy_cell. rewrite nth_error_app2, Nat.sub_diag by lia. reflexivity.
Qed.

Lemma derived_last (fs : list frame) (f f' : frame)
    (op : frame -> option frame) (c : timestamp) (g : Z)
    (d : StockDatabase) :
  op f = Some f' ->
  derived (length fs) op (mkWorld (fs ++ [f]) c g d)
  = Some (length (fs ++ [f]), mkWorld ((fs ++ [f]) ++ [f']) c g d).
Proof.
  intros H. unfold derived, bind. rewrite frame_at_last, H. reflexivity.
Qed.

Lemma modify_last (fs : list frame) (f f' : frame)
    (op : frame -> option frame) (c : timestamp) (g : Z)
    (d : StockDatabase) :
  op f = Some f' ->
  modify (length fs) op (mkWorld (fs ++ [f]) c g d)
  = Some (tt, mkWorld (fs ++ [f']) c g d).
Proof.
  intros H. unfold modify, bind. rewrite frame_at_last, H.
  unfold store_frame. cbn [frames wall_clock random_state database].
  rewrite length_app. cbn [length].
  replace (length fs <? length fs + 1)%nat with true
    by (symmetry; apply Nat.ltb_lt; lia).
  rewrite firstn_app, Nat.sub_diag, firstn_all, firstn_O, app_nil_r.
  rewrite skipn_app, skipn_all2 by lia.
  replace (S (length fs) - length fs)%nat with 1%nat by lia.
  reflexivity.
Qed.

Lemma cell_kept (fs added : list frame) (r : nat) (f : frame) :
  nth_error fs r = Some f -> nth_error (fs ++ added) r = Some f.
Proof.
  intros H. rewrite nth_error_app1; [exact H|].
  apply nth_error_Some. rewrite H. discriminate.
Qed.

Lemma last_cell (fs : list frame) (f : frame) :
  nth_error (fs ++ [f]) (length fs) = Some f.
Proof. rewrite nth_error_app2, Nat.sub_diag by lia. reflexivity. Qed.

(** [clean_data] on the store: the result is a new frame with the
    cleaned rows, or the argument itself when that is empty; the frames
    that were there are in their cells as before. *)
Lemma clean_data_at_runs (fs : list frame) (c : timestamp) (g : Z)
    (d : StockDatabase) (df : nat) (rows : list RawBar) :
  nth_error fs df = Some (RawFrame rows) ->
  exists out added,
    clean_data_at df (mkWorld fs c g d)
    = Some (out, mkWorld (fs ++ added) c g d)
    /\ nth_error (fs ++ added) out
       = Some (if empty rows then RawFrame []
               else CleanFrame (clean_data rows)).
Proof.
  intros H. unfold clean_data_at.
  unfold bind at 1. unfold frame_at at 1. cbn [frames]. rewrite H.
  destruct rows as [|r t].
  - exists df, []. cbn [frame_empty empty]. unfold ret.
    rewrite app_nil_r. split; [reflexivity|exact H].
  - cbn [frame_empty empty].
    set (rows := r :: t) in *.
    exists (length ((((fs ++ [RawFrame rows])
                        ++ [RawFrame (dropna_ohlc rows)])
                       ++ [RawFrame (filter close_positive
                                       (dropna_ohlc rows))])
                      ++ [RawFrame (filter close_positive
                                      (dropna_ohlc rows))])).
    exists [RawFrame rows; RawFrame (dropna_ohlc rows);
            RawFrame (filter close_positive (dropna_ohlc rows));
            RawFrame (filter close_positive (dropna_ohlc rows));
            CleanFrame (clean_data rows)].
    replace (fs ++ [RawFrame rows; RawFrame (dropna_ohlc rows);
                    RawFrame (filter close_positive (dropna_ohlc rows));
                    RawFrame (filter close_positive (dropna_ohlc rows));
                    CleanFrame (clean_data rows)])
      with (((((fs ++ [RawFrame rows])
                 ++ [RawFrame (dropna_ohlc rows)])
                ++ [RawFrame (filter close_positive (dropna_ohlc rows))])
               ++ [RawFrame (filter close_positive (dropna_ohlc rows))])
              ++ [CleanFrame (clean_data rows)])
      by (repeat rewrite <- app_assoc; reflexivity).
    split; [|apply last_cell].
    unfold bind.
    rewrite (copy_cell fs df _ c g d H).
    rewrite (modify_last fs _ (RawFrame rows) to_datetime) by reflexivity.
    rewrite (derived_last fs _ (RawFrame (dropna_ohlc rows))) by reflexivity.
    rewrite (derived_last _ _
               (RawFrame (filter close_positive (dropna_ohlc rows))))
      by reflexivity.
    rewrite copy_last.
    rewrite (modify_last _ _
               (RawFrame (filter close_positive (dropna_ohlc rows)))
               to_numeric) by reflexivity.
    rewrite (derived_last _ _ (CleanFrame (clean_data rows)))
      by reflexivity.
    reflexivity.
Qed.

Lemma calculate_metrics_columns (np_sqrt : Q -> Q) (rows : list Bar) :
  rows <> [] ->
  calculate_metrics np_sqrt rows
  = metric_columns np_sqrt (sort_values date rows).
Proof. destruct rows; [congruence|reflexivity]. Qed.

(** [calculate_metrics] on the store: an empty frame is returned as it
    is, otherwise the result is a new frame with the metrics of the rows;
    the frames that were there are in their cells as before. *)
Lemma calculate_metrics_at_runs (np_sqrt : Q -> Q) (fs : list frame)
    (c : timestamp) (g : Z) (d : StockDatabase) (df : nat) (f : frame) :
  nth_error fs df = Some f ->
  (frame_empty f = true \/ exists rows, f = CleanFrame rows) ->
  exists out added,
    calculate_metrics_at np_sqrt df (mkWorld fs c g d)
    = Some (out, mkWorld (fs ++ added) c g d)
    /\ nth_error (fs ++ added) out
       = Some (if frame_empty f then f
               else match f with
                    | CleanFrame rows =>
                        MetricFrame (calculate_metrics np_sqrt rows)
                    | RawFrame _ | MetricFrame _ => f
                    end).
Proof.
  intros H Hshape. unfold calculate_metrics_at.
  unfold bind at 1. unfold frame_at at 1. cbn [frames]. rewrite H.
  destruct (frame_empty f) eqn:E.
  - exists df, []. unfold ret. rewrite app_nil_r.
    split; [reflexivity|exact H].
  - destruct Hshape as [Hempty|[rows ->]]; [discriminate|].
    assert (Hne : rows <> []) by (intros ->; discriminate).
    exists (length (fs ++ [CleanFrame rows])).
    exists [CleanFrame rows; MetricFrame (calculate_metrics np_sqrt rows)].
    replace (fs ++ [CleanFrame rows;
                    MetricFrame (calculate_metrics np_sqrt rows)])
      with ((fs ++ [CleanFrame rows])
              ++ [MetricFrame (calculate_metrics np_sqrt rows)])
      by (rewrite <- app_assoc; reflexivity).
    split; [|apply last_cell].
    unfold bind.
    rewrite (copy_cell fs df _ c g d H).
    rewrite (derived_last fs _ (CleanFrame (sort_values date rows)))
      by reflexivity.
    rewrite (modify_last _ _
               (MetricFrame (calculate_metrics np_sqrt rows))
               (assign_metrics np_sqrt))
      by (cbn [assign_metrics];
          rewrite (calculate_metrics_columns np_sqrt rows Hne);
          reflexivity).
    reflexivity.
Qed.

Lemma derive_at_runs (np_sqrt : Q -> Q) (fs : list frame) (c : timestamp)
    (g : Z) (d : StockDatabase) (df : nat) (rows : list RawBar) :
  nth_error fs df = Some (RawFrame rows) ->
  exists out added,
    derive_at np_sqrt df (mkWorld fs c g d)
    = Some (out, mkWorld (fs ++ added) c g d)
    /\ nth_error (fs ++ added) out = Some (derived_frame np_sqrt rows).
Proof.
  intros H.
  destruct (clean_data_at_runs fs c g d df rows H)
    as (mid & added & Hclean & Hmid).
  destruct (calculate_metrics_at_runs np_sqrt (fs ++ added) c g d mid _
              Hmid) as (out & added' & Hcalc & Hout).
  { destruct (empty rows); [left; reflexivity|right; eexists; reflexivity]. }
  exists out, (added ++ added'). rewrite app_assoc.
  split.
  - unfold derive_at, bind. rewrite Hclean. exact Hcalc.
  - rewrite Hout. f_equal. unfold derived_frame, derive.
    destruct (empty rows); [reflexivity|].
    cbn [frame_empty].
    destruct (empty (clean_data rows)) eqn:E; [|reflexivity].
    destruct (clean_data rows); [reflexivity|discriminate].
Qed.

Lemma derived_frame_rows (np_sqrt : Q -> Q) (rows : list RawBar) :
  metric_rows (derived_frame np_sqrt rows) = derive np_sqrt rows.
Proof.
  unfold derived_frame, derive.
  destruct rows as [|r t]; [reflexivity|]. cbn [empty].
  destruct (clean_data (r :: t)); reflexivity.
Qed.

Lemma untouched_after (fs added : list frame) (c : timestamp) (g : Z)
    (d : StockDatabase) :
  untouched (mkWorld fs c g d) (mkWorld (fs ++ added) c g d).
Proof.
  unfold untouched. cbn [frames wall_clock random_state database].
  rewrite firstn_app, Nat.sub_diag, firstn_all, firstn_O, app_nil_r.
  repeat split.
Qed.

(** C5.  The derivation is run in two worlds that may differ in the
    clock, in the state of the random generator, in the database and in
    the frames they hold, on two frames of the feed with the same rows.
    Both runs return, the two results are frames with the same rows,
    which are the rows of [derive] on the input, and each run leaves its
    world as it found it, new frames apart: the input frame and every
    other frame are unchanged, and so are the clock, the random generator
    and the database. *)
Theorem derive_at_deterministic (np_sqrt : Q -> Q) (rows : list RawBar)
    (w1 w2 : World) (df1 df2 : nat) :
  nth_error (frames w1) df1 = Some (RawFrame rows) ->
  nth_error (frames w2) df2 = Some (RawFrame rows) ->
  exists out1 w1' out2 w2' result,
    derive_at np_sqrt df1 w1 = Some (out1, w1')
    /\ derive_at np_sqrt df2 w2 = Some (out2, w2')
    /\ nth_error (frames w1') out1 = Some result
    /\ nth_error (frames w2') out2 = Some result
    /\ metric_rows result = derive np_sqrt rows
    /\ untouched w1 w1'
    /\ untouched w2 w2'.
Proof.
  intros H1 H2.
  destruct w1 as [fs1 c1 g1 d1], w2 as [fs2 c2 g2 d2].
  cbn [frames] in H1, H2.
  destruct (derive_at_runs np_sqrt fs1 c1 g1 d1 df1 rows H1)
    as (out1 & added1 & Hrun1 & Hout1).
  destruct (derive_at_runs np_sqrt fs2 c2 g2 d2 df2 rows H2)
    as (out2 & added2 & Hrun2 & Hout2).
  exists out1, (mkWorld (fs1 ++ added1) c1 g1 d1).
  exists out2, (mkWorld (fs2 ++ added2) c2 g2 d2).
  exists (derived_frame np_sqrt rows).
  split; [exact Hrun1|]. split; [exact Hrun2|].
  split; [exact Hout1|]. split; [exact Hout2|].
  split; [apply derived_frame_rows|].
  split; apply untouched_after.
Qed.

Lemma derive_at_deterministic_witness :
  exists out1 w1' out2 w2',
    derive_at sqrt_floor 0
      (mkWorld [RawFrame two_days] 0%Z 0%Z init_database)
    = Some (out1, w1')
    /\ derive_at sqrt_floor 1
         (mkWorld [CleanFrame three_days; RawFrame two_days] 86400%Z 7%Z
            (mkDatabase [] [stored_day]))
       = Some (out2, w2')
    /\ option_map metric_rows (nth_error (frames w1') out1)
       = Some (derive sqrt_floor two_days)
    /\ option_map metric_rows (nth_error (frames w2') out2)
       = Some (derive sqrt_floor two_days)
    /\ nth_error (frames w2') 1 = Some (RawFrame two_days)
    /\ wall_clock w2' = 86400%Z.
Proof.
  destruct (derive_at_deterministic sqrt_floor two_days
              (mkWorld [RawFrame two_days] 0%Z 0%Z init_database)
              (mkWorld [CleanFrame three_days; RawFrame two_days] 86400%Z
                 7%Z (mkDatabase [] [stored_day]))
              0 1 eq_refl eq_refl)
    as (out1 & w1' & out2 & w2' & result & Hrun1 & Hrun2 & Hout1 & Hout2
        & Hrows & _ & Hkept & Hclock & _).
  exists out1, w1', out2, w2'.
  split; [exact Hrun1|]. split; [exact Hrun2|].
  split; [rewrite Hout1; cbn [option_map]; rewrite Hrows; reflexivity|].
  split; [rewrite Hout2; cbn [option_map]; rewrite Hrows; reflexivity|].
  split; [|exact Hclock].
  cbn [frames length] in Hkept.
  rewrite <- (firstn_skipn 2 (frames w2')), Hkept. reflexivity.
Defined.

(** The summary is not of that kind: [get_summary_statistics] reads the
    clock, and in two worlds that differ in the clock alone it returns two
    summaries for the same frame. *)
Lemma summary_reads_clock :
  option_map fst
    (get_summary_statistics_at 0
       (mkWorld [MetricFrame [stored_day; later_day]] 0%Z 0%Z init_database))
  <> option_map fst
       (get_summary_statistics_at 0
          (mkWorld [MetricFrame [stored_day; later_day]]
             (days_365 + 2)%Z 0%Z init_database)).
Proof. vm_compute. discriminate. Qed.


(** * Further properties of the modelled code *)

(** ** Cleaning *)

Lemma raw_of_to_bar (r : RawBar) (b : Bar) :
  to_bar r = Some b -> raw_of b = r.
Proof.
  destruct r as [s d o h l c v]. unfold to_bar, raw_of. simpl.
  destruct o, h, l, c, v; try discriminate.
  intros H. injection H as <-. reflexivity.
Qed.

Lemma to_bar_raw_of (b : Bar) : to_bar (raw_of b) = Some b.
Proof. destruct b. reflexivity. Qed.

Lemma to_bar_some_ohlc (r : RawBar) (b : Bar) :
  to_bar r = Some b ->
  notna (raw_open r) && notna (raw_high r) && notna (raw_low r)
  && notna (raw_close r) = true.
Proof.
  unfold to_bar.
  destruct (raw_open r), (raw_high r), (raw_low r), (raw_close r);
    try discriminate.
  reflexivity.
Qed.

Lemma close_positive_to_bar (r : RawBar) (b : Bar) :
  to_bar r = Some b -> close_positive r = survives r.
Proof.
  intros E. unfold close_positive, survives.
  rewrite E, (to_bar_close r b E). reflexivity.
Qed.

Lemma survives_none (r : RawBar) : to_bar r = None -> survives r = false.
Proof. intros E. unfold survives. rewrite E. reflexivity. Qed.

Lemma clean_passes_survivors (df : list RawBar) :
  map raw_of (dropna_numeric (filter close_positive (dropna_ohlc df)))
  = filter survives df.
Proof.
  unfold dropna_ohlc.
  induction df as [|r rest IH]; [reflexivity|].
  cbn [filter].
  destruct (to_bar r) as [b|] eqn:E.
  - rewrite (to_bar_some_ohlc r b E). cbn [filter].
    rewrite (close_positive_to_bar r b E).
    destruct (survives r).
    + cbn [dropna_numeric]. rewrite E. cbn [map].
      rewrite IH, (raw_of_to_bar r b E). reflexivity.
    + exact IH.
  - rewrite (survives_none r E).
    destruct (notna (raw_open r) && notna (raw_high r) && notna (raw_low r)
              && notna (raw_close r)).
    + cbn [filter]. destruct (close_positive r).
      * cbn [dropna_numeric]. rewrite E. exact IH.
      * exact IH.
    + exact IH.
Qed.

Lemma clean_data_keeps_survivors_aux (raw : list RawBar) :
  map raw_of (clean_data raw) = filter survives raw.
Proof.
  unfold clean_data. destruct raw as [|r rest]; [reflexivity|].
  cbv beta iota delta [empty].
  apply clean_passes_survivors.
Qed.

(** X1.  Cleaning only drops rows: written back as raw rows, the cleaned
    frame is the input restricted, in its order, to the rows that have no
    null in open, high, low, close and volume and a positive close. *)
Theorem clean_data_keeps_survivors (raw : list RawBar) :
  map raw_of (clean_data raw) = filter survives raw
  /\ (length (clean_data raw) <= length raw)%nat
  /\ (forall b, In b (clean_data raw) <->
                exists r, In r raw /\ to_bar r = Some b /\ 0 < close b).
Proof.
  pose proof (clean_data_keeps_survivors_aux raw) as Heq.
  split; [exact Heq|]. split.
  - rewrite <- (length_map raw_of), Heq. apply filter_length_le.
  - intros b. split.
    + intros Hb. exists (raw_of b).
      assert (Hin : In (raw_of b) (filter survives raw))
        by (rewrite <- Heq; apply in_map; exact Hb).
      apply filter_In in Hin. destruct Hin as [Hin _].
      split; [exact Hin|]. split; [apply to_bar_raw_of|].
      apply (clean_data_close_positive raw), Hb.
    + intros (r & Hin & Hr & Hc).
      assert (Hs : In r (filter survives raw)).
      { apply filter_In. split; [exact Hin|].
        unfold survives. rewrite Hr.
        destruct (Qle_bool (close b) 0) eqn:E; [|reflexivity].
        apply Qle_bool_iff in E. exfalso.
        exact (Qlt_not_le _ _ Hc E). }
      rewrite <- Heq in Hs. apply in_map_iff in Hs.
      destruct Hs as (b' & Hb' & Hin').
      rewrite <- (raw_of_to_bar r b Hr) in Hb'.
      assert (E : to_bar (raw_of b') = to_bar (raw_of b))
        by (rewrite Hb'; reflexivity).
      rewrite !to_bar_raw_of in E. injection E as <-. exact Hin'.
Qed.

Lemma raw_of_injective (a b : Bar) : raw_of a = raw_of b -> a = b.
Proof.
  intros H.
  assert (E : to_bar (raw_of a) = to_bar (raw_of b)) by (rewrite H; reflexivity).
  rewrite !to_bar_raw_of in E. injection E as ->. reflexivity.
Qed.

Lemma map_raw_of_injective (l1 l2 : list Bar) :
  map raw_of l1 = map raw_of l2 -> l1 = l2.
Proof.
  revert l2. induction l1 as [|a l1 IH]; intros [|b l2] H;
    try discriminate; [reflexivity|].
  cbn [map] in H.
  assert (Hhd : raw_of a = raw_of b) by congruence.
  assert (Htl : map raw_of l1 = map raw_of l2) by congruence.
  f_equal; [apply raw_of_injective, Hhd|apply IH, Htl].
Qed.

Lemma filter_idempotent {A : Type} (p : A -> bool) (l : list A) :
  filter p (filter p l) = filter p l.
Proof.
  induction l as [|x t IH]; simpl; [reflexivity|].
  destruct (p x) eqn:E; simpl; rewrite ?E, IH; reflexivity.
Qed.

(** X2.  Cleaning is idempotent: a cleaned frame fed back to [clean_data]
    comes out unchanged. *)
Theorem clean_data_idempotent (raw : list RawBar) :
  clean_data (map raw_of (clean_data raw)) = clean_data raw.
Proof.
  apply map_raw_of_injective.
  rewrite !clean_data_keeps_survivors_aux.
  apply filter_idempotent.
Qed.

(** ** The frame of [calculate_metrics] *)

Lemma key_le_transitive {A : Type} (key : A -> Z) :
  Relations_1.Transitive (key_le key).
Proof. intros x y z Hxy Hyz. unfold key_le in *. lia. Qed.

Lemma same_key_same_row {A : Type} (key : A -> Z) (l : list A) (x y : A) :
  NoDup (map key l) -> In x l -> In y l -> key x = key y -> x = y.
Proof.
  induction l as [|a t IH]; intros Hnd Hx Hy Hk; [destruct Hx|].
  cbn [map] in Hnd. inversion Hnd as [|k ks Hnotin Hnd']. subst.
  destruct Hx as [<-|Hx], Hy as [<-|Hy].
  - reflexivity.
  - exfalso. apply Hnotin. rewrite Hk. apply in_map, Hy.
  - exfalso. apply Hnotin. rewrite <- Hk. apply in_map, Hx.
  - apply IH; assumption.
Qed.

(** A frame without repeated keys has one sorted arrangement. *)
Lemma sorted_perm_unique {A : Type} (key : A -> Z) :
  forall l1 l2 : list A,
    Sorted (key_le key) l1 -> Sorted (key_le key) l2 ->
    Permutation l1 l2 -> NoDup (map key l1) -> l1 = l2.
Proof.
  induction l1 as [|a l1 IH]; intros l2 Hs1 Hs2 Hp Hnd.
  - apply Permutation_nil in Hp. congruence.
  - destruct l2 as [|b l2];
      [apply Permutation_sym, Permutation_nil in Hp; discriminate|].
    assert (Hab : a = b).
    { apply (same_key_same_row key (a :: l1)); try assumption.
      - left. reflexivity.
      - apply (Permutation_in b (Permutation_sym Hp)). left. reflexivity.
      - apply Sorted_StronglySorted in Hs1, Hs2;
          try apply key_le_transitive.
        inversion Hs1 as [|x xs _ Hall1]. inversion Hs2 as [|y ys _ Hall2].
        subst. rewrite Forall_forall in Hall1, Hall2.
        assert (H1 : (key a <= key b)%Z).
        { destruct (Permutation_in b (Permutation_sym Hp) (or_introl eq_refl))
            as [->|Hin]; [lia|exact (Hall1 b Hin)]. }
        assert (H2 : (key b <= key a)%Z).
        { destruct (Permutation_in a Hp (or_introl eq_refl))
            as [->|Hin]; [lia|exact (Hall2 a Hin)]. }
        lia. }
    subst b. f_equal.
    apply IH.
    + inversion Hs1; assumption.
    + inversion Hs2; assumption.
    + apply Permutation_cons_inv in Hp. exact Hp.
    + cbn [map] in Hnd. inversion Hnd; assumption.
Qed.

(** Sorting forgets the order in which the rows came. *)
Lemma sort_values_perm_invariant {A : Type} (key : A -> Z) (l1 l2 : list A) :
  Permutation l1 l2 -> NoDup (map key l1) ->
  sort_values key l1 = sort_values key l2.
Proof.
  intros Hp Hnd.
  apply (sorted_perm_unique key).
  - apply sort_values_sorted.
  - apply sort_values_sorted.
  - eapply perm_trans; [apply Permutation_sym, sort_values_perm|].
    eapply perm_trans; [exact Hp|apply sort_values_perm].
  - eapply Permutation_NoDup; [|exact Hnd].
    apply Permutation_map, sort_values_perm.
Qed.

Lemma assign_columns_bar :
  forall df dr ma hi lo vol,
    length dr = length df -> length ma = length df ->
    length hi = length df -> length lo = length df ->
    length vol = length df ->
    map bar (assign_columns df dr ma hi lo vol) = df.
Proof.
  induction df as [|b df IH];
    intros [|d dr] [|m ma] [|h hi] [|l lo] [|v vol] H1 H2 H3 H4 H5;
    simpl in *; try discriminate; try reflexivity.
  f_equal. apply IH; lia.
Qed.

Lemma calculate_metrics_bars (np_sqrt : Q -> Q) (df : list Bar) :
  map bar (calculate_metrics np_sqrt df) = sort_values date df.
Proof.
  unfold calculate_metrics.
  destruct df as [|b t]; [reflexivity|].
  cbv beta iota delta [empty].
  apply assign_columns_bar;
    unfold column;
    rewrite ?volatility_column_length, ?rolling_length, ?length_map;
    reflexivity.
Qed.

(** X3.  [calculate_metrics] neither drops nor invents a bar: the bars of
    its rows are the bars of the input, rearranged into ascending date
    order. *)
Theorem calculate_metrics_keeps_bars (np_sqrt : Q -> Q) (df : list Bar) :
  Permutation df (map bar (calculate_metrics np_sqrt df))
  /\ Sorted (key_le date) (map bar (calculate_metrics np_sqrt df))
  /\ length (calculate_metrics np_sqrt df) = length df.
Proof.
  rewrite calculate_metrics_bars.
  split; [apply sort_values_perm|].
  split; [apply sort_values_sorted|].
  apply calculate_metrics_length.
Qed.

(** X4.  The metrics do not depend on the order in which the bars arrive:
    two frames with the same bars, no date twice, get the same rows. *)
Theorem calculate_metrics_order_insensitive (np_sqrt : Q -> Q)
    (df df' : list Bar) :
  Permutation df df' ->
  NoDup (map date df) ->
  calculate_metrics np_sqrt df = calculate_metrics np_sqrt df'.
Proof.
  intros Hp Hnd.
  pose proof (sort_values_perm_invariant date df df' Hp Hnd) as Hsort.
  unfold calculate_metrics.
  destruct df as [|b t], df' as [|b' t'].
  - reflexivity.
  - apply Permutation_nil in Hp. discriminate.
  - apply Permutation_sym, Permutation_nil in Hp. discriminate.
  - cbv beta iota delta [empty]. rewrite Hsort. reflexivity.
Qed.

Lemma calculate_metrics_order_insensitive_witness :
  calculate_metrics sqrt_floor three_days
  = calculate_metrics sqrt_floor (rev three_days).
Proof.
  apply (calculate_metrics_order_insensitive sqrt_floor three_days
           (rev three_days)).
  - apply Permutation_rev.
  - simpl. repeat constructor; simpl; intuition discriminate.
Defined.

(** ** The moving average and the 52-week band *)

Lemma trailing_in_frame {A : Type} (w i : nat) (l : list A) (x : A) :
  In x (trailing w i l) -> In x l.
Proof.
  unfold trailing. intros H.
  apply (In_skipn (S i - w)).
  rewrite <- (firstn_skipn (Nat.min w (S i)) (skipn (S i - w) l)).
  apply in_or_app. left. exact H.
Qed.

Lemma sorted_frame_bracketed (df : list Bar) :
  Forall bracketed df -> Forall bracketed (sort_values date df).
Proof.
  intros H. apply Forall_forall. intros b Hb.
  rewrite Forall_forall in H. apply H.
  apply (Permutation_in b (Permutation_sym (sort_values_perm date df))).
  exact Hb.
Qed.

(** X5.  When every bar has its close between its low and its high, the
    close of a row lies inside that row's 52-week band,
    [week_52_low <= close <= week_52_high]; the two bounds are a low and
    a high of the frame, so only comparisons are involved. *)
Theorem close_within_week_52_band (np_sqrt : Q -> Q) (df : list Bar)
    (i : nat) (r : MetricRow) :
  Forall bracketed df ->
  nth_error (calculate_metrics np_sqrt df) i = Some r ->
  fle (week_52_low r) (Fin (close (bar r)))
  /\ fle (Fin (close (bar r))) (week_52_high r)
  /\ (exists b, In b df /\ week_52_low r = Fin (low b))
  /\ (exists b, In b df /\ week_52_high r = Fin (high b)).
Proof.
  intros Hbr H.
  pose proof (calculate_metrics_row np_sqrt _ _ _ H) as Hrow.
  cbv zeta in Hrow.
  destruct Hrow as (Hb & _ & _ & Hh & Hl & _).
  set (s := sort_values date df) in *.
  assert (Hi : (i < length s)%nat)
    by (apply nth_error_Some; rewrite Hb; discriminate).
  pose proof (sorted_frame_bracketed df Hbr) as Hs. fold s in Hs.
  rewrite Forall_forall in Hs.
  assert (Hcur : In (bar r) (trailing 252 i s))
    by (apply trailing_has_current; [lia|exact Hb]).
  assert (Hback : forall b, In b (trailing 252 i s) -> In b df).
  { intros b Hin. apply trailing_in_frame in Hin.
    apply (Permutation_in b (Permutation_sym (sort_values_perm date df))).
    exact Hin. }
  destruct (agg_max_is_maximum (map high (trailing 252 i s)))
    as (hi & Ehi & Hhi & Hmax); [apply trailing_map_nonempty; [lia|exact Hi]|].
  destruct (agg_min_is_minimum (map low (trailing 252 i s)))
    as (lo & Elo & Hlo & Hmin); [apply trailing_map_nonempty; [lia|exact Hi]|].
  rewrite Forall_forall in Hmax, Hmin.
  destruct (Hs (bar r) (trailing_in_frame 252 i s _ Hcur)) as [Hlc Hch].
  rewrite Hh, Hl, Ehi, Elo. cbn [fle].
  split; [|split; [|split]].
  - apply Qle_trans with (low (bar r)); [|exact Hlc].
    apply Hmin, in_map, Hcur.
  - apply Qle_trans with (high (bar r)); [exact Hch|].
    apply Hmax, in_map, Hcur.
  - apply in_map_iff in Hlo. destruct Hlo as (b & <- & Hin).
    exists b. split; [apply Hback, Hin|reflexivity].
  - apply in_map_iff in Hhi. destruct Hhi as (b & <- & Hin).
    exists b. split; [apply Hback, Hin|reflexivity].
Qed.

Lemma close_within_week_52_band_witness :
  map (fun r => (week_52_low r, week_52_high r))
      (calculate_metrics sqrt_floor three_days)
  = [(Fin 9, Fin 12); (Fin 9, Fin 15); (Fin 8, Fin 16)]
  /\ fle (week_52_low (nth 2 (calculate_metrics sqrt_floor three_days)
                         null_row)) (Fin 9)
  /\ fle (Fin 9)
         (week_52_high (nth 2 (calculate_metrics sqrt_floor three_days)
                          null_row)).
Proof.
  split; [reflexivity|].
  destruct (close_within_week_52_band sqrt_floor three_days 2
              (nth 2 (calculate_metrics sqrt_floor three_days) null_row))
    as (Hlow & Hhigh & _).
  - repeat constructor; unfold Qle; simpl; lia.
  - reflexivity.
  - split; [exact Hlow|exact Hhigh].
Defined.

(** ** The summary *)

Lemma iloc_last_none {A : Type} (df : list A) :
  iloc_last df = None <-> df = [].
Proof.
  unfold iloc_last. split.
  - destruct (rev df) as [|x t] eqn:E; [|discriminate].
    intros _. apply (f_equal (@rev A)) in E.
    rewrite rev_involutive in E. exact E.
  - intros ->. reflexivity.
Qed.

(** The frame the 52-week figures of the summary are taken over. *)
Lemma summary_fields (now : timestamp) (df : list MetricRow) (s : Summary) :
  get_summary_statistics now df = Some s ->
  let window := if empty (last_year now df) then df else last_year now df in
  df <> []
  /\ window <> []
  /\ s_52_week_high s = agg_max (map (fun r => high (bar r)) window)
  /\ s_52_week_low s = agg_min (map (fun r => low (bar r)) window)
  /\ avg_close s = agg_mean (map (fun r => close (bar r)) window)
  /\ total_days s = length df.
Proof.
  intros H window. unfold window. clear window.
  unfold get_summary_statistics in H. unfold last_year.
  destruct (iloc_last df) as [last_row|] eqn:E; [|discriminate].
  injection H as <-.
  assert (Hne : df <> [])
    by (intros Hnil; apply iloc_last_none in Hnil; congruence).
  split; [exact Hne|]. split.
  - destruct (filter _ df) as [|x t] eqn:Ef; simpl; [exact Hne|discriminate].
  - repeat split.
Qed.

Lemma sorted_before_last {A : Type} (R : A -> A -> Prop) (front : list A)
    (x y : A) :
  StronglySorted R (front ++ [x]) -> In y front -> R y x.
Proof.
  induction front as [|z t IH]; intros Hs Hy; [contradiction|].
  cbn [app] in Hs. apply StronglySorted_inv in Hs. destruct Hs as [Ht Hz].
  destruct Hy as [->|Hy]; [|exact (IH Ht Hy)].
  rewrite Forall_forall in Hz. apply Hz, in_or_app. right. left. reflexivity.
Qed.

Lemma key_le_chain {A : Type} (key : A -> Z) (x y z : A) :
  key_le key x y -> key_le key y z -> key_le key x z.
Proof. unfold key_le. lia. Qed.

(** The row whose close is the current price. *)
Lemma summary_current_price (now : timestamp) (df : list MetricRow)
    (s : Summary) :
  get_summary_statistics now df = Some s ->
  exists front last_row,
    df = front ++ [last_row]
    /\ current_price s = Fin (close (bar last_row)).
Proof.
  intros H. unfold get_summary_statistics in H.
  destruct (iloc_last df) as [last_row|] eqn:E; [|discriminate].
  injection H as <-. unfold iloc_last in E.
  destruct (rev df) as [|x t] eqn:Er; [discriminate|].
  injection E as ->.
  exists (rev t), last_row. split; [|reflexivity].
  apply (f_equal (@rev MetricRow)) in Er.
  rewrite rev_involutive in Er. exact Er.
Qed.

(** X6.  The summary of a frame in date order whose bars have their close
    between low and high is consistent: the current price lies between
    the 52-week low and the 52-week high, and [total_days] is the number
    of rows. *)
Theorem summary_price_within_band (now : timestamp) (df : list MetricRow)
    (s : Summary) :
  Sorted (key_le row_date) df ->
  Forall (fun r => bracketed (bar r)) df ->
  get_summary_statistics now df = Some s ->
  fle (s_52_week_low s) (current_price s)
  /\ fle (current_price s) (s_52_week_high s)
  /\ total_days s = length df.
Proof.
  intros Hsorted Hbr H.
  destruct (summary_fields now df s H) as (_ & Hne & Hh & Hl & _ & Hn).
  destruct (summary_current_price now df s H)
    as (front & last_row & Hdf & Hprice).
  set (window := if empty (last_year now df) then df else last_year now df)
    in *.
  assert (Hlast : In last_row df)
    by (rewrite Hdf; apply in_or_app; right; left; reflexivity).
  assert (Hin : In last_row window).
  { unfold window.
    destruct (last_year now df) as [|r t] eqn:E; [exact Hlast|].
    cbn [empty]. rewrite <- E. unfold last_year.
    apply filter_In. split; [exact Hlast|].
    assert (Hr : In r (last_year now df)) by (rewrite E; left; reflexivity).
    unfold last_year in Hr. apply filter_In in Hr. destruct Hr as [Hr Hrecent].
    apply Z.leb_le in Hrecent. apply Z.leb_le.
    rewrite Hdf in Hr. apply in_app_or in Hr.
    destruct Hr as [Hr|[<-|[]]]; [|exact Hrecent].
    assert (Hle : key_le row_date r last_row).
    { apply (sorted_before_last _ front); [|exact Hr].
      rewrite <- Hdf. apply Sorted_StronglySorted; [|exact Hsorted].
      intros x y z. apply key_le_chain. }
    unfold key_le, row_date in Hle. lia. }
  assert (Hne' : forall f : MetricRow -> Q, map f window <> [])
    by (intros f E; apply map_eq_nil in E; contradiction).
  destruct (agg_max_is_maximum _ (Hne' (fun r => high (bar r))))
    as (hi & Ehi & _ & Hmax).
  destruct (agg_min_is_minimum _ (Hne' (fun r => low (bar r))))
    as (lo & Elo & _ & Hmin).
  rewrite Forall_forall in Hmax, Hmin, Hbr.
  destruct (Hbr last_row Hlast) as [Hlc Hch].
  rewrite Hh, Hl, Ehi, Elo, Hprice. cbn [fle].
  split; [|split; [|exact Hn]].
  - apply Qle_trans with (low (bar last_row)); [|exact Hlc].
    apply Hmin. apply (in_map (fun r => low (bar r))), Hin.
  - apply Qle_trans with (high (bar last_row)); [exact Hch|].
    apply Hmax. apply (in_map (fun r => high (bar r))), Hin.
Qed.

Lemma summary_price_within_band_witness :
  exists s,
    get_summary_statistics 0%Z [stored_day; later_day] = Some s
    /\ fle (s_52_week_low s) (current_price s)
    /\ fle (current_price s) (s_52_week_high s)
    /\ total_days s = 2%nat.
Proof.
  eexists. split; [reflexivity|].
  apply (summary_price_within_band 0%Z [stored_day; later_day]).
  - repeat first [apply Sorted_cons | apply Sorted_nil | apply HdRel_cons
                 | apply HdRel_nil].
    unfold key_le, row_date, stored_day, later_day. simpl. lia.
  - repeat constructor; unfold Qle; simpl; lia.
  - reflexivity.
Defined.

(** X7.  The summary is empty exactly for the empty frame.  Otherwise its
    52-week high and low are the extrema over the rows dated within 365
    days before the evaluation time, older rows not counting, and over all
    rows when no row is that recent; the current price is the close of
    the last row. *)
Theorem summary_year_window (now : timestamp) (df : list MetricRow) :
  (get_summary_statistics now df = None <-> df = [])
  /\ (forall s,
        get_summary_statistics now df = Some s ->
        exists hi lo,
          s_52_week_high s = Fin hi /\ s_52_week_low s = Fin lo
          /\ (last_year now df <> [] ->
              is_maximum hi (map (fun r => high (bar r)) (last_year now df))
              /\ is_minimum lo
                   (map (fun r => low (bar r)) (last_year now df)))
          /\ (last_year now df = [] ->
              is_maximum hi (map (fun r => high (bar r)) df)
              /\ is_minimum lo (map (fun r => low (bar r)) df))
          /\ exists front last_row,
               df = front ++ [last_row]
               /\ current_price s = Fin (close (bar last_row))).
Proof.
  split.
  - unfold get_summary_statistics. split.
    + destruct (iloc_last df) eqn:E; [discriminate|].
      intros _. apply iloc_last_none, E.
    + intros ->. reflexivity.
  - intros s H.
    destruct (summary_fields now df s H) as (_ & Hne & Hh & Hl & _).
    set (window := if empty (last_year now df) then df else last_year now df)
      in *.
    assert (Hne' : forall f : MetricRow -> Q, map f window <> [])
      by (intros f E; apply map_eq_nil in E; contradiction).
    destruct (agg_max_is_maximum _ (Hne' (fun r => high (bar r))))
      as (hi & Ehi & Hmax).
    destruct (agg_min_is_minimum _ (Hne' (fun r => low (bar r))))
      as (lo & Elo & Hmin).
    exists hi, lo.
    split; [congruence|]. split; [congruence|].
    split; [|split].
    + intros Hrecent. unfold window in Hmax, Hmin.
      destruct (last_year now df); [congruence|]. split; assumption.
    + intros Hrecent. unfold window in Hmax, Hmin.
      rewrite Hrecent in Hmax, Hmin. split; assumption.
    + unfold get_summary_statistics in H.
      destruct (iloc_last df) as [last_row|] eqn:E; [|discriminate].
      injection H as <-. unfold iloc_last in E.
      destruct (rev df) as [|x t] eqn:Er; [discriminate|].
      injection E as ->.
      exists (rev t), last_row. split; [|reflexivity].
      apply (f_equal (@rev MetricRow)) in Er.
      rewrite rev_involutive in Er. exact Er.
Qed.

Lemma summary_year_window_witness :
  exists s,
    get_summary_statistics 0%Z [stored_day; later_day] = Some s
    /\ exists hi lo,
         s_52_week_high s = Fin hi /\ s_52_week_low s = Fin lo
         /\ is_maximum hi [110; 120] /\ is_minimum lo [90; 100].
Proof.
  eexists. split; [reflexivity|].
  destruct (proj2 (summary_year_window 0%Z [stored_day; later_day])
              _ eq_refl)
    as (hi & lo & Hh & Hl & Hrecent & _).
  exists hi, lo.
  split; [exact Hh|]. split; [exact Hl|].
  apply Hrecent. discriminate.
Defined.

(** ** The tables and their keys *)

Lemma same_key_iff (r r' : MetricRow) :
  same_key r r' = true <-> row_key r = row_key r'.
Proof.
  unfold same_key, row_key. rewrite andb_true_iff, String.eqb_eq, Z.eqb_eq.
  split.
  - intros [-> ->]. reflexivity.
  - intros H. injection H as -> ->. split; reflexivity.
Qed.

Lemma key_in_table (r : MetricRow) (table : list MetricRow) :
  existsb (same_key r) table = true <-> In (row_key r) (map row_key table).
Proof.
  rewrite existsb_exists, in_map_iff. split.
  - intros (x & Hin & Hk). exists x. split; [|exact Hin].
    symmetry. apply same_key_iff, Hk.
  - intros (x & Hk & Hin). exists x. split; [exact Hin|].
    apply same_key_iff. symmetry. exact Hk.
Qed.

(** The inserts go through exactly when the keys of the table and of the
    frame, taken together, are all different. *)
Lemma insert_rows_returns (df : list MetricRow) :
  forall table t,
    insert_rows table df = Returned t ->
    t = table ++ df
    /\ NoDup (map row_key df)
    /\ (forall k, In k (map row_key df) -> ~ In k (map row_key table)).
Proof.
  induction df as [|r rest IH]; intros table t H; simpl in H.
  - injection H as <-. rewrite app_nil_r.
    split; [reflexivity|]. split; [constructor|]. intros k [].
  - destruct (existsb (same_key r) table) eqn:E; [discriminate|].
    destruct (IH _ _ H) as (-> & Hnd & Hfresh).
    assert (Hr : ~ In (row_key r) (map row_key table)).
    { intros Hin. apply key_in_table in Hin. congruence. }
    split; [rewrite <- app_assoc; reflexivity|]. split.
    + cbn [map]. constructor; [|exact Hnd].
      intros Hin. apply (Hfresh _ Hin).
      rewrite map_app. apply in_or_app. right. left. reflexivity.
    + intros k [<-|Hk]; [exact Hr|].
      intros Hin. apply (Hfresh k Hk).
      rewrite map_app. apply in_or_app. left. exact Hin.
Qed.

Lemma insert_rows_accepts (df : list MetricRow) :
  forall table,
    NoDup (map row_key df) ->
    (forall k, In k (map row_key df) -> ~ In k (map row_key table)) ->
    insert_rows table df = Returned (table ++ df).
Proof.
  induction df as [|r rest IH]; intros table Hnd Hfresh; simpl.
  - rewrite app_nil_r. reflexivity.
  - cbn [map] in Hnd. inversion Hnd as [|k ks Hnotin Hnd']. subst.
    destruct (existsb (same_key r) table) eqn:E.
    + apply key_in_table in E. exfalso.
      apply (Hfresh (row_key r)); [left; reflexivity|exact E].
    + rewrite IH.
      * rewrite <- app_assoc. reflexivity.
      * exact Hnd'.
      * intros k Hk Hin. rewrite map_app in Hin.
        apply in_app_or in Hin. destruct Hin as [Hin|[<-|[]]].
        -- apply (Hfresh k); [right; exact Hk|exact Hin].
        -- exact (Hnotin Hk).
Qed.

Lemma insert_rows_keeps_unique (df table t : list MetricRow) :
  unique_keys table -> insert_rows table df = Returned t -> unique_keys t.
Proof.
  intros Hu H.
  destruct (insert_rows_returns df table t H) as (-> & Hnd & Hfresh).
  unfold unique_keys. rewrite map_app.
  apply NoDup_app; [exact Hu|exact Hnd|].
  intros k Hk Hk'. exact (Hfresh k Hk' Hk).
Qed.

Lemma distinct_after_filter {K V : Type} (key : V -> K) (keep : V -> bool) :
  forall rows : list V,
    NoDup (map key rows) -> NoDup (map key (filter keep rows)).
Proof.
  intros rows. induction rows as [|x t IH]; intros H; [constructor|].
  cbn [map] in H. inversion H as [|k ks Hnotin Hnd]. subst.
  cbn [filter]. destruct (keep x).
  - cbn [map]. constructor; [|apply IH, Hnd].
    intros Hin. apply Hnotin.
    apply in_map_iff in Hin. destruct Hin as (y & Hy & Hin).
    apply filter_In in Hin. rewrite <- Hy. apply in_map, Hin.
  - apply IH, Hnd.
Qed.

Lemma add_company_symbols (now : timestamp) (db : StockDatabase)
    (sym name : string) :
  NoDup (map company_symbol (companies db)) ->
  NoDup (map company_symbol (companies (add_company now db sym name))).
Proof.
  intros H. unfold add_company. cbn [companies].
  rewrite map_app. apply NoDup_app.
  - apply distinct_after_filter, H.
  - repeat constructor. intros [].
  - intros k Hk [<-|[]].
    apply in_map_iff in Hk. destruct Hk as (c & Hc & Hin).
    apply filter_In in Hin. destruct Hin as [_ Hneq].
    apply negb_true_iff, String.eqb_neq in Hneq. contradiction.
Qed.

(** X8.  Whatever calls are made on a fresh database, the two tables keep
    their keys: no two rows of [stock_data] share a (symbol, date), and no
    two companies share a symbol. *)
Theorem reachable_keys_unique (db : StockDatabase) :
  reachable db ->
  unique_keys (stock_data db)
  /\ NoDup (map company_symbol (companies db)).
Proof.
  induction 1 as [|db db' Hreach [IHs IHc] Hstep].
  - split; constructor.
  - destruct Hstep as [now db sym name|db df|db sym].
    + split; [exact IHs|apply add_company_symbols, IHc].
    + unfold save_stock_data.
      destruct (insert_rows (stock_data db) df) as [t|e] eqn:E; simpl.
      * split; [exact (insert_rows_keeps_unique df _ t IHs E)|exact IHc].
      * split; assumption.
    + split; [|exact IHc].
      unfold clear_stock_data, unique_keys. cbn [stock_data].
      apply distinct_after_filter, IHs.
Qed.

Lemma reachable_keys_unique_witness :
  unique_keys
    (stock_data (snd (save_stock_data
                        (add_company 0%Z init_database "TCS.NS" "TCS")
                        [stored_day; later_day]))).
Proof.
  apply (reachable_keys_unique
           (snd (save_stock_data (add_company 0%Z init_database "TCS.NS" "TCS")
                   [stored_day; later_day]))).
  apply (reach_step (add_company 0%Z init_database "TCS.NS" "TCS")).
  - apply (reach_step init_database); [apply reach_init|].
    apply step_add_company.
  - apply step_save.
Defined.

(** X9.  [save_stock_data] accepts a frame exactly when no row of it
    repeats the (symbol, date) of another row of the frame or of a row in
    the table; it then appends the whole frame in order.  In every other
    case it raises the integrity error and the database is unchanged. *)
Theorem save_succeeds_iff (db : StockDatabase) (df : list MetricRow) :
  let fresh :=
    NoDup (map row_key df)
    /\ (forall k, In k (map row_key df) ->
                  ~ In k (map row_key (stock_data db))) in
  (fresh <->
   save_stock_data db df
   = (Returned tt, mkDatabase (companies db) (stock_data db ++ df)))
  /\ (~ fresh <->
      exists sym d, save_stock_data db df = (Raised (IntegrityError sym d), db)).
Proof.
  intros fresh. unfold save_stock_data.
  destruct (insert_rows (stock_data db) df) as [t|[sym d]] eqn:E.
  - destruct (insert_rows_returns df _ t E) as (-> & Hnd & Hfresh).
    assert (Hf : fresh) by (split; assumption).
    split; split.
    + intros _. reflexivity.
    + intros _. exact Hf.
    + intros Hn. contradiction.
    + intros (s & d & H). discriminate.
  - assert (Hf : ~ fresh).
    { intros [Hnd Hfresh].
      rewrite (insert_rows_accepts df _ Hnd Hfresh) in E. discriminate. }
    split; split.
    + intros H. contradiction.
    + intros H. discriminate.
    + intros _. exists sym, d. reflexivity.
    + intros _. exact Hf.
Qed.

(** ** Clearing a symbol *)

Lemma filter_filter_none {A : Type} (p : A -> bool) (l : list A) :
  filter p (filter (fun x => negb (p x)) l) = [].
Proof.
  induction l as [|x t IH]; [reflexivity|].
  cbn [filter]. destruct (p x) eqn:E; cbn [negb filter]; [exact IH|].
  rewrite E. exact IH.
Qed.

Lemma filter_filter_other {A : Type} (p q : A -> bool) (l : list A) :
  (forall x, p x = true -> q x = true) ->
  filter p (filter q l) = filter p l.
Proof.
  intros H. induction l as [|x t IH]; [reflexivity|].
  cbn [filter]. destruct (q x) eqn:Eq.
  - cbn [filter]. rewrite IH. reflexivity.
  - destruct (p x) eqn:Ep; [rewrite (H x Ep) in Eq; discriminate|exact IH].
Qed.

Lemma clear_only_that_symbol_aux (db : StockDatabase) (sym : string) :
  get_all_stock_data (clear_stock_data db sym) sym = []
  /\ (forall sym', sym' <> sym ->
        get_all_stock_data (clear_stock_data db sym) sym'
        = get_all_stock_data db sym')
  /\ companies (clear_stock_data db sym) = companies db
  /\ clear_stock_data (clear_stock_data db sym) sym = clear_stock_data db sym.
Proof.
  unfold get_all_stock_data, clear_stock_data. cbn [stock_data companies].
  split.
  { rewrite (filter_filter_none
               (fun r => String.eqb (symbol (bar r)) sym)).
    reflexivity. }
  split.
  { intros sym' Hneq. f_equal.
    apply filter_filter_other. intros r Hr.
    apply String.eqb_eq in Hr. rewrite Hr.
    apply negb_true_iff, String.eqb_neq. exact Hneq. }
  split; [reflexivity|].
  f_equal. apply filter_idempotent.
Qed.

(** X10.  [clear_stock_data] removes every row of its symbol and nothing
    else: afterwards the symbol reads back empty, every other symbol reads
    back as before, the companies are untouched, and clearing again
    changes nothing. *)
Theorem clear_only_that_symbol (db : StockDatabase) (sym : string) :
  get_all_stock_data (clear_stock_data db sym) sym = []
  /\ (forall sym', sym' <> sym ->
        get_all_stock_data (clear_stock_data db sym) sym'
        = get_all_stock_data db sym')
  /\ companies (clear_stock_data db sym) = companies db
  /\ clear_stock_data (clear_stock_data db sym) sym = clear_stock_data db sym.
Proof.
  pose proof (clear_only_that_symbol_aux db sym) as (H1 & H2 & H3 & H4).
  repeat split; assumption.
Qed.

(** ** The frame of [process_stock] *)

Lemma to_bar_fields (r : RawBar) (b : Bar) :
  to_bar r = Some b -> symbol b = raw_symbol r /\ date b = raw_date r.
Proof.
  intros H. apply raw_of_to_bar in H. subst r. split; reflexivity.
Qed.

Lemma fetch_stock_data_rows
    (yf_history : string -> string -> option (list RawBar))
    (sym period : string) :
  Forall (fun r => raw_symbol r = sym) (fetch_stock_data yf_history sym period)
  /\ (forall raw, yf_history sym period = Some raw ->
        map raw_date (fetch_stock_data yf_history sym period)
        = map raw_date raw).
Proof.
  unfold fetch_stock_data.
  destruct (yf_history sym period) as [df|]; [|split; [constructor|discriminate]].
  split.
  - destruct (empty df); [constructor|].
    apply Forall_forall. intros r Hr.
    apply in_map_iff in Hr. destruct Hr as (x & <- & _). reflexivity.
  - intros raw H. injection H as <-.
    destruct df as [|r t]; [reflexivity|].
    cbv beta iota delta [empty]. rewrite map_map. reflexivity.
Qed.

Lemma clean_data_dates (raw : list RawBar) :
  map date (clean_data raw) = map raw_date (filter survives raw).
Proof.
  rewrite <- clean_data_keeps_survivors_aux, map_map. reflexivity.
Qed.

Lemma sorted_rows_of_bars (l : list MetricRow) :
  Sorted (key_le date) (map bar l) -> Sorted (key_le row_date) l.
Proof.
  induction l as [|r t IH]; intros H; [constructor|].
  cbn [map] in H. inversion H as [|x xs Hs Hd]. subst.
  constructor; [apply IH, Hs|].
  destruct t as [|r' t']; constructor.
  cbn [map] in Hd. inversion Hd. assumption.
Qed.

Section ProcessFacts.
Variable np_sqrt : Q -> Q.
Variable yf_history : string -> string -> option (list RawBar).

Lemma process_stock_frame_is (now : timestamp) (sym period : string) :
  fst (process_stock np_sqrt yf_history now sym period)
  = calculate_metrics np_sqrt
      (clean_data (fetch_stock_data yf_history sym period)).
Proof.
  unfold process_stock.
  destruct (fetch_stock_data yf_history sym period); reflexivity.
Qed.

Lemma process_stock_summary_is (now : timestamp) (sym period : string) :
  snd (process_stock np_sqrt yf_history now sym period)
  = get_summary_statistics now
      (fst (process_stock np_sqrt yf_history now sym period)).
Proof.
  unfold process_stock.
  destruct (fetch_stock_data yf_history sym period); reflexivity.
Qed.

Lemma process_stock_bar_in (now : timestamp) (sym period : string)
    (r : MetricRow) :
  In r (fst (process_stock np_sqrt yf_history now sym period)) ->
  In (bar r) (clean_data (fetch_stock_data yf_history sym period)).
Proof.
  rewrite process_stock_frame_is. intros H.
  apply (in_map bar) in H. rewrite calculate_metrics_bars in H.
  apply (Permutation_in _ (Permutation_sym (sort_values_perm date _))), H.
Qed.

Lemma process_stock_symbol (now : timestamp) (sym period : string)
    (r : MetricRow) :
  In r (fst (process_stock np_sqrt yf_history now sym period)) ->
  symbol (bar r) = sym.
Proof.
  intros H. apply process_stock_bar_in in H.
  apply (in_map raw_of) in H.
  rewrite clean_data_keeps_survivors_aux in H.
  apply filter_In in H. destruct H as [H _].
  pose proof (proj1 (fetch_stock_data_rows yf_history sym period)) as Hall.
  rewrite Forall_forall in Hall. exact (Hall _ H).
Qed.

Lemma process_stock_sorted (now : timestamp) (sym period : string) :
  Sorted (key_le row_date)
    (fst (process_stock np_sqrt yf_history now sym period)).
Proof.
  apply sorted_rows_of_bars.
  rewrite process_stock_frame_is, calculate_metrics_bars.
  apply sort_values_sorted.
Qed.

Lemma process_stock_dates (now : timestamp) (sym period : string)
    (raw : list RawBar) :
  yf_history sym period = Some raw ->
  NoDup (map raw_date raw) ->
  NoDup (map row_date
           (fst (process_stock np_sqrt yf_history now sym period))).
Proof.
  intros Hfeed Hnd.
  rewrite process_stock_frame_is.
  unfold row_date. rewrite <- (map_map bar date), calculate_metrics_bars.
  eapply Permutation_NoDup;
    [apply Permutation_map, sort_values_perm|].
  rewrite clean_data_dates.
  apply distinct_after_filter.
  rewrite (proj2 (fetch_stock_data_rows yf_history sym period) raw Hfeed).
  exact Hnd.
Qed.

(** X11.  The frame that [process_stock] returns for a symbol carries that
    symbol on every row, has a positive close on every row, and is in
    ascending date order; it has no date twice when the feed has none
    twice; and the summary is empty exactly when the frame is. *)
Theorem process_stock_frame (now : timestamp) (sym period : string) :
  let df := fst (process_stock np_sqrt yf_history now sym period) in
  Forall (fun r => symbol (bar r) = sym /\ 0 < close (bar r)) df
  /\ Sorted (key_le row_date) df
  /\ (forall raw, yf_history sym period = Some raw ->
        NoDup (map raw_date raw) -> NoDup (map row_date df))
  /\ (snd (process_stock np_sqrt yf_history now sym period) = None
      <-> df = []).
Proof.
  intros df. split.
  { apply Forall_forall. intros r Hr. split.
    - apply (process_stock_symbol now sym period), Hr.
    - apply (clean_data_close_positive
               (fetch_stock_data yf_history sym period)).
      apply (process_stock_bar_in now sym period), Hr. }
  split; [apply process_stock_sorted|].
  split; [intros raw; apply process_stock_dates|].
  rewrite process_stock_summary_is. fold df.
  unfold get_summary_statistics. split.
  - destruct (iloc_last df) eqn:E; [discriminate|].
    intros _. apply iloc_last_none, E.
  - intros ->. reflexivity.
Qed.

End ProcessFacts.

(** ** Saving the frame of one symbol *)

Lemma no_rows_of_symbol (db : StockDatabase) (sym : string) :
  get_all_stock_data db sym = [] ->
  filter (fun r => String.eqb (symbol (bar r)) sym) (stock_data db) = [].
Proof.
  unfold get_all_stock_data. apply sort_values_nil.
Qed.

Lemma keys_of_symbol_frame (sym : string) (df : list MetricRow) :
  Forall (of_symbol sym) df ->
  map row_key df = map (pair sym) (map row_date df).
Proof.
  induction 1 as [|r t Hr Ht IH]; [reflexivity|].
  cbn [map]. rewrite IH. unfold row_key at 1, row_date at 2.
  rewrite Hr. reflexivity.
Qed.

Lemma NoDup_pair_iff {A B : Type} (a : A) (l : list B) :
  NoDup (map (pair a) l) <-> NoDup l.
Proof.
  split; [apply NoDup_map_inv|].
  induction 1 as [|x t Hx Ht IH]; cbn [map]; constructor; [|exact IH].
  intros Hin. apply in_map_iff in Hin.
  destruct Hin as (y & Hy & Hin). injection Hy as <-. contradiction.
Qed.

Lemma symbol_frame_keys_unique (sym : string) (df : list MetricRow) :
  Forall (of_symbol sym) df ->
  NoDup (map row_key df) <-> NoDup (map row_date df).
Proof.
  intros H. rewrite (keys_of_symbol_frame sym df H). apply NoDup_pair_iff.
Qed.

Lemma save_new_symbol (db : StockDatabase) (df : list MetricRow)
    (sym : string) :
  filter (fun r => String.eqb (symbol (bar r)) sym) (stock_data db) = [] ->
  Forall (of_symbol sym) df ->
  NoDup (map row_date df) ->
  save_stock_data db df
  = (Returned tt, mkDatabase (companies db) (stock_data db ++ df)).
Proof.
  intros Hnone Hsym Hnd. unfold save_stock_data.
  rewrite insert_rows_accepts; [reflexivity| |].
  - apply (symbol_frame_keys_unique sym df Hsym), Hnd.
  - intros k Hk Hin.
    rewrite (keys_of_symbol_frame sym df Hsym) in Hk.
    apply in_map_iff in Hk. destruct Hk as (d & <- & _).
    apply in_map_iff in Hin. destruct Hin as (r & Hr & Hin).
    assert (Hf : In r (filter (fun r => String.eqb (symbol (bar r)) sym)
                         (stock_data db))).
    { apply filter_In. split; [exact Hin|].
      apply String.eqb_eq. unfold row_key in Hr. congruence. }
    rewrite Hnone in Hf. destruct Hf.
Qed.

Lemma save_repeated_date (db : StockDatabase) (df : list MetricRow)
    (sym : string) :
  Forall (of_symbol sym) df ->
  ~ NoDup (map row_date df) ->
  exists s d, save_stock_data db df = (Raised (IntegrityError s d), db).
Proof.
  intros Hsym Hdup. unfold save_stock_data.
  destruct (insert_rows (stock_data db) df) as [t|[s d]] eqn:E.
  - destruct (insert_rows_returns df _ t E) as (_ & Hnd & _).
    apply (symbol_frame_keys_unique sym df Hsym) in Hnd. contradiction.
  - exists s, d. reflexivity.
Qed.

Lemma filter_none {A : Type} (p : A -> bool) (l : list A) :
  Forall (fun x => p x = false) l -> filter p l = [].
Proof.
  induction 1 as [|x t Hx Ht IH]; [reflexivity|].
  cbn [filter]. rewrite Hx. exact IH.
Qed.

Lemma sort_rows_id (df : list MetricRow) :
  Sorted (key_le row_date) df ->
  sort_values (fun r => date (bar r)) df = df.
Proof. intros H. apply (sort_values_id (fun r => date (bar r))). exact H. Qed.

(** Reading back after the frame of one symbol was appended to a table
    without rows of that symbol. *)
Lemma get_all_after_append (c : list Company) (table df : list MetricRow)
    (sym : string) :
  filter (fun r => String.eqb (symbol (bar r)) sym) table = [] ->
  Forall (of_symbol sym) df ->
  Sorted (key_le row_date) df ->
  get_all_stock_data (mkDatabase c (table ++ df)) sym = df
  /\ (forall sym', sym' <> sym ->
        get_all_stock_data (mkDatabase c (table ++ df)) sym'
        = get_all_stock_data (mkDatabase c table) sym').
Proof.
  intros Hnone Hsym Hsorted.
  unfold get_all_stock_data. cbn [stock_data]. split.
  - rewrite filter_app, Hnone, app_nil_l.
    rewrite filter_all; [apply sort_rows_id, Hsorted|].
    eapply Forall_impl; [|exact Hsym].
    intros r Hr. apply String.eqb_eq. exact Hr.
  - intros sym' Hneq. rewrite filter_app.
    rewrite (filter_none _ df); [rewrite app_nil_r; reflexivity|].
    eapply Forall_impl; [|exact Hsym].
    intros r Hr. apply String.eqb_neq. unfold of_symbol in Hr.
    congruence.
Qed.

(** ** Refreshing and serving *)

Lemma lastn_length {A : Type} (n : nat) (l : list A) :
  length (lastn n l) = Nat.min n (length l).
Proof. unfold lastn. rewrite length_skipn. lia. Qed.

Lemma empty_false {A : Type} (l : list A) : l <> [] -> empty l = false.
Proof. destruct l; [congruence|reflexivity]. Qed.

Section OrchestrationFacts.
Variable np_sqrt : Q -> Q.
Variable yf_history : string -> string -> option (list RawBar).

Lemma process_stock_of_symbol (now : timestamp) (sym period : string) :
  Forall (of_symbol sym)
    (fst (process_stock np_sqrt yf_history now sym period)).
Proof.
  apply Forall_forall. intros r Hr.
  apply (process_stock_symbol np_sqrt yf_history now sym period), Hr.
Qed.

(** X12.  A refresh whose processed frame is not empty and has no date
    twice replaces the cache of the symbol: it returns the fresh frame,
    the table then holds the rows of the other symbols followed by the
    fresh rows, the symbol reads back with the dates and closes of the
    fresh frame, every other symbol reads back as before, and a later
    load without refresh writes nothing, whatever the feed does then. *)
Theorem refresh_replaces_cache (now : timestamp) (db : StockDatabase)
    (sym : string) :
  let fresh := process_stock np_sqrt yf_history now sym "1y" in
  fst fresh <> [] ->
  NoDup (map row_date (fst fresh)) ->
  exists db',
    load_stock_data np_sqrt yf_history now db sym true = (Returned fresh, db')
    /\ stock_data db' = stock_data (clear_stock_data db sym) ++ fst fresh
    /\ map date_close (get_all_stock_data db' sym)
       = map date_close (fst fresh)
    /\ (forall sym', sym' <> sym ->
          get_all_stock_data db' sym' = get_all_stock_data db sym')
    /\ (forall yf' now',
          snd (load_stock_data np_sqrt yf' now' db' sym false) = db').
Proof.
  intros fresh Hne Hnd.
  pose proof (process_stock_of_symbol now sym "1y") as Hsym.
  pose proof (process_stock_sorted np_sqrt yf_history now sym "1y") as Hsorted.
  fold fresh in Hsym, Hsorted.
  assert (Hcleared :
    filter (fun r => String.eqb (symbol (bar r)) sym)
      (stock_data (clear_stock_data db sym)) = []).
  { unfold clear_stock_data. cbn [stock_data].
    apply (filter_filter_none (fun r => String.eqb (symbol (bar r)) sym)). }
  destruct (get_all_after_append (companies db)
              (stock_data (clear_stock_data db sym)) (fst fresh) sym
              Hcleared Hsym Hsorted) as [Hread Hothers].
  exists (mkDatabase (companies db)
            (stock_data (clear_stock_data db sym) ++ fst fresh)).
  split; [|split; [reflexivity|split; [rewrite Hread; reflexivity|split]]].
  - unfold load_stock_data. fold fresh.
    destruct fresh as [df summary] eqn:E. cbn [fst] in *.
    rewrite (empty_false df Hne). cbn [negb].
    rewrite (save_new_symbol (clear_stock_data db sym) df sym
               Hcleared Hsym Hnd).
    reflexivity.
  - intros sym' Hneq. rewrite (Hothers sym' Hneq).
    apply (proj1 (proj2 (clear_only_that_symbol_aux db sym))), Hneq.
  - intros yf' now'. unfold load_stock_data, load_from_cache.
    rewrite Hread. rewrite (empty_false (fst fresh) Hne).
    destruct (get_summary_statistics_read_back now' (fst fresh));
      reflexivity.
Qed.

End OrchestrationFacts.

Lemma refresh_replaces_cache_witness :
  exists db',
    load_stock_data sqrt_floor example_feed 0%Z
      (mkDatabase [] [refetched_day]) "TCS.NS" true
    = (Returned (process_stock sqrt_floor example_feed 0%Z "TCS.NS" "1y"),
       db')
    /\ map date_close (get_all_stock_data db' "TCS.NS")
       = [(1%Z, 105); (2%Z, 110)].
Proof.
  destruct (refresh_replaces_cache sqrt_floor example_feed 0%Z
              (mkDatabase [] [refetched_day]) "TCS.NS")
    as (db' & Hload & _ & Hread & _).
  - discriminate.
  - simpl. repeat constructor; simpl; intuition discriminate.
  - exists db'. split; [exact Hload|].
    rewrite Hread. reflexivity.
Defined.

Section ServingFacts.
Variable np_sqrt : Q -> Q.
Variable yf_history : string -> string -> option (list RawBar).

(** X13.  A refresh whose processed frame holds a date twice loses the
    cache of the symbol: the rows were cleared before the save, the save
    raises the integrity error and inserts nothing, and the symbol then
    reads back empty. *)
Theorem refresh_repeated_date_loses_cache (now : timestamp)
    (db : StockDatabase) (sym : string) :
  ~ NoDup (map row_date
             (fst (process_stock np_sqrt yf_history now sym "1y"))) ->
  (exists s d,
      load_stock_data np_sqrt yf_history now db sym true
      = (Raised (SqlError (IntegrityError s d)), clear_stock_data db sym))
  /\ get_all_stock_data (clear_stock_data db sym) sym = [].
Proof.
  intros Hdup.
  split; [|apply clear_only_that_symbol_aux].
  pose proof (process_stock_of_symbol np_sqrt yf_history now sym "1y")
    as Hsym.
  unfold load_stock_data.
  destruct (process_stock np_sqrt yf_history now sym "1y")
    as [df summary] eqn:E.
  cbn [fst] in *.
  assert (Hne : df <> []) by (intros ->; apply Hdup; constructor).
  rewrite (empty_false df Hne). cbn [negb].
  destruct (save_repeated_date (clear_stock_data db sym) df sym Hsym Hdup)
    as (s & d & Hsave).
  rewrite Hsave. exists s, d. reflexivity.
Qed.

(** X14.  A request for a symbol with cached rows is served from the
    cache alone: the database is unchanged, the feed and the clock play no
    part, and for a non-negative [days] the response holds the last
    [days] cached rows, all of them when fewer are cached. *)
Theorem get_stock_data_cache_hit (now : timestamp) (db : StockDatabase)
    (sym : string) (days : Z) :
  let cached := get_all_stock_data db sym in
  cached <> [] ->
  get_stock_data np_sqrt yf_history now db sym days
  = (Response (mkDataResponse sym (length (tail days cached))
                 (tail days cached)), db)
  /\ ((0 <= days)%Z ->
      tail days cached = lastn (Z.to_nat days) cached
      /\ length (tail days cached)
         = Nat.min (Z.to_nat days) (length cached)).
Proof.
  intros cached Hne. split.
  - unfold get_stock_data. fold cached.
    rewrite (empty_false cached Hne). cbv beta iota zeta.
    rewrite (empty_false cached Hne). reflexivity.
  - intros Hdays. unfold tail.
    replace (0 <=? days)%Z with true by (symmetry; apply Z.leb_le; exact Hdays).
    split; [reflexivity|apply lastn_length].
Qed.

(** X15.  On a cache miss with a processed frame that is not empty and
    has no date twice, the handler answers from the fresh frame and saves
    it; the same request repeated is then answered from the cache, with
    as many rows and the same dates and closes, and leaves the database
    as it is, whatever the feed does. *)
Theorem get_stock_data_miss_then_hit (now : timestamp) (db : StockDatabase)
    (sym : string) (days : Z) :
  let df := fst (process_stock np_sqrt yf_history now sym "1y") in
  get_all_stock_data db sym = [] ->
  df <> [] ->
  NoDup (map row_date df) ->
  exists db',
    get_stock_data np_sqrt yf_history now db sym days
    = (Response (mkDataResponse sym (length (tail days df)) (tail days df)),
       db')
    /\ stock_data db' = stock_data db ++ df
    /\ (forall yf' now', exists again,
          get_stock_data np_sqrt yf' now' db' sym days
          = (Response again, db')
          /\ resp_symbol again = sym
          /\ days_returned again = length (tail days df)
          /\ map date_close (data again) = map date_close (tail days df)).
Proof.
  intros df Hmiss Hne Hnd.
  pose proof (process_stock_of_symbol np_sqrt yf_history now sym "1y")
    as Hsym.
  pose proof (process_stock_sorted np_sqrt yf_history now sym "1y")
    as Hsorted.
  fold df in Hsym, Hsorted.
  pose proof (no_rows_of_symbol db sym Hmiss) as Hnone.
  destruct (get_all_after_append (companies db) (stock_data db) df sym
              Hnone Hsym Hsorted) as [Hread _].
  exists (mkDatabase (companies db) (stock_data db ++ df)).
  split; [|split; [reflexivity|]].
  - unfold get_stock_data. rewrite Hmiss. cbn [empty].
    unfold df in *.
    destruct (process_stock np_sqrt yf_history now sym "1y")
      as [df0 summary] eqn:E.
    cbn [fst] in *.
    rewrite (empty_false df0 Hne). cbn [negb].
    rewrite (save_new_symbol db df0 sym Hnone Hsym Hnd).
    rewrite (empty_false df0 Hne). reflexivity.
  - intros yf' now'.
    exists (mkDataResponse sym (length (tail days df)) (tail days df)).
    split; [|repeat split].
    unfold get_stock_data.
    rewrite Hread. rewrite (empty_false df Hne). cbv beta iota zeta.
    rewrite (empty_false df Hne). reflexivity.
Qed.

(** X16.  On a cache miss with a processed frame that holds a date twice,
    the handler answers 500 with the message of the integrity error and
    the database is unchanged. *)
Theorem get_stock_data_repeated_date (now : timestamp) (db : StockDatabase)
    (sym : string) (days : Z) :
  get_all_stock_data db sym = [] ->
  ~ NoDup (map row_date
             (fst (process_stock np_sqrt yf_history now sym "1y"))) ->
  get_stock_data np_sqrt yf_history now db sym days
  = (HTTPException 500
       "Error fetching stock data: UNIQUE constraint failed: stock_data.symbol, stock_data.date",
     db).
Proof.
  intros Hmiss Hdup.
  pose proof (process_stock_of_symbol np_sqrt yf_history now sym "1y")
    as Hsym.
  unfold get_stock_data. rewrite Hmiss. cbn [empty].
  destruct (process_stock np_sqrt yf_history now sym "1y")
    as [df summary] eqn:E.
  cbn [fst] in *.
  assert (Hne : df <> []) by (intros ->; apply Hdup; constructor).
  rewrite (empty_false df Hne). cbn [negb].
  destruct (save_repeated_date db df sym Hsym Hdup) as (s & d & Hsave).
  rewrite Hsave. reflexivity.
Qed.

(** X17.  [GET /summary/{symbol}] answers 404, naming the symbol and
    writing nothing, when neither the cache nor the feed has rows.  With
    cached rows it answers from the cache alone and writes nothing: when
    some cached [volatility_score] is not NULL the body is the summary of
    the cached rows, never the all-zero defaults, with the number of
    cached rows as [total_days]; when every cached [volatility_score] is
    NULL, as with one cached row, the answer is 500 with the message of
    the [TypeError]. *)
Theorem get_summary_responses (now : timestamp) (db : StockDatabase)
    (sym : string) :
  let cached := get_all_stock_data db sym in
  (cached = [] ->
   fetch_stock_data yf_history sym "1y" = [] ->
   get_summary np_sqrt yf_history now db sym
   = (HTTPException 404 ("No data found for symbol: " ++ sym), db))
  /\ (cached <> [] ->
      read_as_objects (map volatility_score cached) = false ->
      exists s,
        get_summary_statistics now cached = Some s
        /\ get_summary np_sqrt yf_history now db sym
           = (Response (summary_response sym (Some s)), db)
        /\ r_total_days (summary_response sym (Some s)) = length cached)
  /\ (cached <> [] ->
      read_as_objects (map volatility_score cached) = true ->
      get_summary np_sqrt yf_history now db sym
      = (HTTPException 500 ("Error fetching summary: " ++ float_of_none),
         db)).
Proof.
  intros cached. split; [|split].
  - intros Hmiss Hfetch. unfold get_summary. fold cached.
    rewrite Hmiss. cbn [empty].
    rewrite (process_stock_nothing_fetched _ _ _ _ _ Hfetch).
    reflexivity.
  - intros Hne Hfloat.
    destruct (get_summary_statistics now cached) as [s|] eqn:E.
    + exists s. split; [reflexivity|]. split.
      * unfold get_summary. fold cached.
        rewrite (empty_false _ Hne). cbv beta iota zeta.
        rewrite (empty_false _ Hne).
        unfold get_summary_statistics_read_back.
        rewrite (empty_false _ Hne), Hfloat, E. reflexivity.
      * destruct (summary_fields now _ s E) as (_ & _ & _ & _ & _ & Hn).
        exact Hn.
    + unfold get_summary_statistics in E.
      destruct (iloc_last cached) eqn:El; [discriminate|].
      apply iloc_last_none in El. contradiction.
  - intros Hne Hnull. unfold get_summary. fold cached.
    rewrite (empty_false _ Hne). cbv beta iota zeta.
    rewrite (empty_false _ Hne).
    unfold get_summary_statistics_read_back.
    rewrite (empty_false _ Hne), Hnull. reflexivity.
Qed.

End ServingFacts.

Lemma repeating_feed_repeats :
  ~ NoDup (map row_date
             (fst (process_stock sqrt_floor repeating_feed 0%Z "TCS.NS" "1y"))).
Proof.
  intros H. vm_compute in H.
  inversion H as [|x l Hnotin _]. apply Hnotin. left. reflexivity.
Qed.

Lemma refresh_repeated_date_loses_cache_witness :
  exists s d,
    load_stock_data sqrt_floor repeating_feed 0%Z
      (mkDatabase [] [stored_day]) "TCS.NS" true
    = (Raised (SqlError (IntegrityError s d)), mkDatabase [] []).
Proof.
  destruct (refresh_repeated_date_loses_cache sqrt_floor repeating_feed 0%Z
              (mkDatabase [] [stored_day]) "TCS.NS" repeating_feed_repeats)
    as [(s & d & H) _].
  exists s, d. exact H.
Defined.

Lemma get_stock_data_cache_hit_witness :
  get_stock_data sqrt_floor outage_feed 0%Z
    (mkDatabase [] [later_day; stored_day]) "TCS.NS" 1%Z
  = (Response (mkDataResponse "TCS.NS" 1 [later_day]),
     mkDatabase [] [later_day; stored_day]).
Proof.
  apply (get_stock_data_cache_hit sqrt_floor outage_feed 0%Z
           (mkDatabase [] [later_day; stored_day]) "TCS.NS" 1%Z).
  discriminate.
Defined.

Lemma get_stock_data_miss_then_hit_witness :
  exists body again db',
    get_stock_data sqrt_floor example_feed 0%Z init_database "TCS.NS" 30%Z
    = (Response body, db')
    /\ get_stock_data sqrt_floor outage_feed 86400%Z db' "TCS.NS" 30%Z
       = (Response again, db')
    /\ days_returned again = 2%nat
    /\ map date_close (data again) = [(1%Z, 105); (2%Z, 110)].
Proof.
  destruct (get_stock_data_miss_then_hit sqrt_floor example_feed 0%Z
              init_database "TCS.NS" 30%Z)
    as (db' & Hfirst & _ & Hagain).
  - reflexivity.
  - discriminate.
  - simpl. repeat constructor; simpl; intuition discriminate.
  - destruct (Hagain outage_feed 86400%Z)
      as (again & Hsecond & _ & Hcount & Hrows).
    eexists _, again, db'. split; [exact Hfirst|].
    split; [exact Hsecond|].
    split; [rewrite Hcount|rewrite Hrows]; reflexivity.
Defined.

Lemma get_stock_data_repeated_date_witness :
  get_stock_data sqrt_floor repeating_feed 0%Z init_database "TCS.NS" 30%Z
  = (HTTPException 500
       "Error fetching stock data: UNIQUE constraint failed: stock_data.symbol, stock_data.date",
     init_database).
Proof.
  apply (get_stock_data_repeated_date sqrt_floor repeating_feed 0%Z
           init_database "TCS.NS" 30%Z).
  - reflexivity.
  - exact repeating_feed_repeats.
Defined.

Lemma get_summary_responses_witness :
  get_summary sqrt_floor example_feed 0%Z init_database "INFY.NS"
  = (HTTPException 404 "No data found for symbol: INFY.NS", init_database)
  /\ (exists s,
        get_summary sqrt_floor outage_feed 0%Z
          (mkDatabase [] [later_day; stored_day]) "TCS.NS"
        = (Response (summary_response "TCS.NS" (Some s)),
           mkDatabase [] [later_day; stored_day])
        /\ r_total_days (summary_response "TCS.NS" (Some s)) = 2%nat)
  /\ get_summary sqrt_floor outage_feed 0%Z
       (mkDatabase [] [stored_day]) "TCS.NS"
     = (HTTPException 500 ("Error fetching summary: " ++ float_of_none),
        mkDatabase [] [stored_day]).
Proof.
  split; [|split].
  - apply (proj1 (get_summary_responses sqrt_floor example_feed 0%Z
                    init_database "INFY.NS")); reflexivity.
  - destruct (proj1 (proj2 (get_summary_responses sqrt_floor outage_feed 0%Z
                              (mkDatabase [] [later_day; stored_day])
                              "TCS.NS")))
      as (s & _ & Hresp & Hdays).
    + discriminate.
    + reflexivity.
    + exists s. split; [exact Hresp|exact Hdays].
  - apply (proj2 (proj2 (get_summary_responses sqrt_floor outage_feed 0%Z
                           (mkDatabase [] [stored_day]) "TCS.NS")));
      [discriminate|reflexivity].
Defined.

(** ** The most recent rows *)

Lemma StronglySorted_app {A : Type} (R : A -> A -> Prop) (l1 l2 : list A) :
  StronglySorted R l1 -> StronglySorted R l2 ->
  (forall x y, In x l1 -> In y l2 -> R x y) ->
  StronglySorted R (l1 ++ l2).
Proof.
  intros H1 H2 Hcross. induction H1 as [|a l Hs IH Hall]; [exact H2|].
  cbn [app]. constructor.
  - apply IH. intros x y Hx Hy. apply Hcross; [right; exact Hx|exact Hy].
  - apply Forall_app. split; [exact Hall|].
    apply Forall_forall. intros y Hy.
    apply Hcross; [left; reflexivity|exact Hy].
Qed.

Lemma StronglySorted_rev {A : Type} (R : A -> A -> Prop) (l : list A) :
  StronglySorted R l -> StronglySorted (fun x y => R y x) (rev l).
Proof.
  induction 1 as [|a l Hs IH Hall]; [constructor|].
  cbn [rev]. apply StronglySorted_app.
  - exact IH.
  - repeat constructor.
  - intros x y Hx [<-|[]]. apply in_rev in Hx.
    rewrite Forall_forall in Hall. apply Hall, Hx.
Qed.

Lemma StronglySorted_weaken {A : Type} (R S : A -> A -> Prop) (l : list A) :
  (forall x y, R x y -> S x y) -> StronglySorted R l -> StronglySorted S l.
Proof.
  intros Himp. induction 1 as [|a l Hs IH Hall]; constructor; [exact IH|].
  eapply Forall_impl; [|exact Hall]. intros y. apply Himp.
Qed.

Lemma Sorted_skipn {A : Type} (R : A -> A -> Prop) (k : nat) (l : list A) :
  Sorted R l -> Sorted R (skipn k l).
Proof.
  revert l. induction k as [|k IH]; intros l H; [exact H|].
  destruct l as [|x t]; [constructor|].
  cbn [skipn]. apply IH. inversion H; assumption.
Qed.

Lemma NoDup_skipn {A : Type} (k : nat) (l : list A) :
  NoDup l -> NoDup (skipn k l).
Proof.
  intros H. rewrite <- (firstn_skipn k l) in H.
  exact (NoDup_app_remove_l _ _ H).
Qed.

Lemma NoDup_map_opp (l : list Z) : NoDup l -> NoDup (map Z.opp l).
Proof.
  induction 1 as [|x t Hx Ht IH]; cbn [map]; constructor; [|exact IH].
  intros Hin. apply in_map_iff in Hin. destruct Hin as (y & Hy & Hin).
  assert (y = x) by lia. subst y. contradiction.
Qed.

Section RecentRows.
Variable rows : list MetricRow.
Hypothesis rows_dates : NoDup (map row_date rows).

Local Abbreviation ascending :=
  (sort_values (fun r => date (bar r)) rows).
Local Abbreviation descending :=
  (sort_values (fun r => (- date (bar r))%Z) rows).

Lemma ascending_dates : NoDup (map row_date ascending).
Proof.
  eapply Permutation_NoDup; [|exact rows_dates].
  apply Permutation_map, sort_values_perm.
Qed.

(** On distinct dates [ORDER BY date DESC] is [ORDER BY date] reversed. *)
Lemma descending_is_reversed : descending = rev ascending.
Proof.
  apply (sorted_perm_unique (fun r => (- date (bar r))%Z)).
  - apply sort_values_sorted.
  - apply StronglySorted_Sorted.
    assert (H : StronglySorted (key_le (fun r => date (bar r))) ascending).
    { apply Sorted_StronglySorted; [apply key_le_transitive|].
      apply sort_values_sorted. }
    apply StronglySorted_rev in H.
    eapply StronglySorted_weaken; [|exact H].
    intros x y Hxy. unfold key_le in *. lia.
  - eapply perm_trans; [apply Permutation_sym, sort_values_perm|].
    eapply perm_trans; [apply (sort_values_perm (fun r => date (bar r)))|].
    apply Permutation_rev.
  - eapply Permutation_NoDup;
      [apply Permutation_map, sort_values_perm|].
    rewrite <- (map_map row_date Z.opp).
    apply NoDup_map_opp, rows_dates.
Qed.

Lemma sort_reversed_suffix (k : nat) :
  sort_values (fun r => date (bar r)) (rev (skipn k ascending))
  = skipn k ascending.
Proof.
  apply (sorted_perm_unique (fun r => date (bar r))).
  - apply sort_values_sorted.
  - apply Sorted_skipn, sort_values_sorted.
  - eapply perm_trans; [apply Permutation_sym, sort_values_perm|].
    apply Permutation_sym, Permutation_rev.
  - eapply Permutation_NoDup;
      [apply Permutation_map;
       eapply perm_trans;
         [apply Permutation_rev|apply sort_values_perm]|].
    change (fun r => date (bar r)) with row_date.
    rewrite <- skipn_map. apply NoDup_skipn, ascending_dates.
Qed.

Lemma recent_rows (n : nat) :
  sort_values (fun r => date (bar r)) (firstn n descending)
  = lastn n ascending.
Proof.
  rewrite descending_is_reversed, firstn_rev.
  apply sort_reversed_suffix.
Qed.

Lemma all_rows :
  sort_values (fun r => date (bar r)) descending = ascending.
Proof.
  rewrite descending_is_reversed.
  exact (sort_reversed_suffix 0).
Qed.

End RecentRows.

Lemma symbol_rows_dates (table : list MetricRow) (sym : string) :
  unique_keys table ->
  NoDup (map row_date
           (filter (fun r => String.eqb (symbol (bar r)) sym) table)).
Proof.
  intros H.
  apply (symbol_frame_keys_unique sym).
  - apply Forall_forall. intros r Hr. apply filter_In in Hr.
    apply String.eqb_eq, Hr.
  - apply distinct_after_filter, H.
Qed.

(** X18.  On a table without repeated keys [StockDatabase.get_stock_data]
    returns the last [days] rows of what [get_all_stock_data] returns, in
    the same ascending order, and all of them when [days] is negative. *)
Theorem database_get_stock_data_recent (db : StockDatabase) (sym : string)
    (days : Z) :
  unique_keys (stock_data db) ->
  ((0 <= days)%Z ->
   Database.get_stock_data db sym days
   = lastn (Z.to_nat days) (get_all_stock_data db sym))
  /\ ((days < 0)%Z ->
      Database.get_stock_data db sym days = get_all_stock_data db sym).
Proof.
  intros Hu.
  pose proof (symbol_rows_dates (stock_data db) sym Hu) as Hnd.
  unfold Database.get_stock_data, get_all_stock_data. split.
  - intros Hdays.
    replace (days <? 0)%Z with false by (symmetry; apply Z.ltb_ge; exact Hdays).
    apply recent_rows, Hnd.
  - intros Hdays.
    replace (days <? 0)%Z with true by (symmetry; apply Z.ltb_lt; exact Hdays).
    apply all_rows, Hnd.
Qed.

Lemma database_get_stock_data_recent_witness :
  Database.get_stock_data (mkDatabase [] [later_day; stored_day]) "TCS.NS" 1
  = [later_day].
Proof.
  apply (proj1 (database_get_stock_data_recent
                  (mkDatabase [] [later_day; stored_day]) "TCS.NS" 1%Z
                  ltac:(repeat constructor; simpl; intuition discriminate))).
  lia.
Defined.

(** ** The company directory *)

Lemma filter_filter_and {A : Type} (p q : A -> bool) (l : list A) :
  filter p (filter q l) = filter (fun x => q x && p x) l.
Proof.
  induction l as [|x t IH]; [reflexivity|].
  cbn [filter]. destruct (q x); cbn [filter andb]; [|exact IH].
  destruct (p x); rewrite IH; reflexivity.
Qed.

Lemma register_companies_stock_data (clock : nat -> timestamp)
    (stocks : list (string * string)) :
  forall k db,
    stock_data (register_companies clock k db stocks) = stock_data db.
Proof.
  induction stocks as [|[sym name] rest IH]; intros k db; [reflexivity|].
  cbn [register_companies]. rewrite IH. reflexivity.
Qed.

Lemma register_companies_table (clock : nat -> timestamp)
    (stocks : list (string * string)) :
  NoDup (map fst stocks) ->
  forall k db,
    companies (register_companies clock k db stocks)
    = filter (fun c => negb (listed (map fst stocks) c)) (companies db)
      ++ registered clock k stocks.
Proof.
  induction stocks as [|[sym name] rest IH]; intros Hnd k db.
  - cbn [register_companies registered map]. rewrite app_nil_r.
    symmetry. apply filter_all. apply Forall_forall. reflexivity.
  - cbn [map fst] in Hnd. inversion Hnd as [|x xs Hnotin Hnd']. subst.
    cbn [register_companies registered].
    rewrite (IH Hnd'). unfold add_company. cbn [companies].
    rewrite filter_app, filter_filter_and. cbn [filter].
    assert (Hkeep : negb (listed (map fst rest)
                            (mkCompany sym name (clock k))) = true).
    { apply negb_true_iff. unfold listed. cbn [company_symbol].
      destruct (existsb (String.eqb sym) (map fst rest)) eqn:E;
        [|reflexivity].
      apply existsb_exists in E. destruct E as (y & Hy & Heq).
      apply String.eqb_eq in Heq. subst y. contradiction. }
    rewrite Hkeep. rewrite <- app_assoc. cbn [app]. f_equal.
    apply filter_ext. intros c.
    unfold listed. cbn [map fst existsb].
    rewrite negb_orb, andb_comm. reflexivity.
Qed.

Lemma registered_names (clock clock' : nat -> timestamp)
    (stocks : list (string * string)) :
  forall k k',
    map (fun c => (company_symbol c, company_name c))
        (registered clock k stocks)
    = map (fun c => (company_symbol c, company_name c))
          (registered clock' k' stocks).
Proof.
  induction stocks as [|[sym name] rest IH]; intros k k'; [reflexivity|].
  cbn [registered map company_symbol company_name]. f_equal. apply IH.
Qed.

Lemma registered_listed (clock : nat -> timestamp)
    (stocks : list (string * string)) :
  forall k,
    Forall (fun c => listed (map fst stocks) c = true)
           (registered clock k stocks).
Proof.
  induction stocks as [|[sym name] rest IH]; intros k; [constructor|].
  cbn [registered]. constructor.
  - unfold listed. cbn [company_symbol map fst existsb].
    rewrite String.eqb_refl. reflexivity.
  - eapply Forall_impl; [|apply (IH (S k))].
    intros c Hc. unfold listed in *. cbn [map fst existsb].
    rewrite Hc. apply orb_true_r.
Qed.

(** X19.  The start-up loop over a list of stocks without repeated symbol
    leaves the price rows alone and makes the directory the companies that
    are not in the list, in their order, followed by the listed ones in
    list order.  Running it again, at any later time, does not add or
    rename a company. *)
Theorem register_companies_directory (clock : nat -> timestamp) (k : nat)
    (db : StockDatabase) (stocks : list (string * string)) :
  NoDup (map fst stocks) ->
  let db' := register_companies clock k db stocks in
  stock_data db' = stock_data db
  /\ companies db'
     = filter (fun c => negb (listed (map fst stocks) c)) (companies db)
       ++ registered clock k stocks
  /\ (forall clock' k',
        map (fun c => (company_symbol c, company_name c))
            (companies (register_companies clock' k' db' stocks))
        = map (fun c => (company_symbol c, company_name c))
              (companies db')).
Proof.
  intros Hnd db'.
  split; [apply register_companies_stock_data|].
  split; [apply register_companies_table, Hnd|].
  intros clock' k'. unfold db'.
  rewrite !(register_companies_table _ stocks Hnd).
  rewrite filter_app, filter_idempotent.
  rewrite (filter_none _ (registered clock k stocks)).
  - rewrite app_nil_r, !map_app. f_equal. apply registered_names.
  - eapply Forall_impl; [|apply registered_listed].
    intros c Hc. cbv beta. rewrite Hc. reflexivity.
Qed.

Lemma register_companies_directory_witness :
  map (fun c => (company_symbol c, company_name c))
      (companies (register_companies (fun k => Z.of_nat k) 0
                    (register_companies (fun _ => 0%Z) 0 init_database
                       NSE_STOCKS)
                    NSE_STOCKS))
  = map (fun c => (company_symbol c, company_name c))
        (companies (register_companies (fun _ => 0%Z) 0 init_database
                      NSE_STOCKS)).
Proof.
  apply (register_companies_directory (fun _ => 0%Z) 0 init_database
           NSE_STOCKS).
  simpl. repeat constructor; simpl; intuition discriminate.
Defined.

(** ** Further facts about the derived columns *)

(** X20.  The first row of the metrics has single-point values: its
    [ma_7] is its close, its 52-week high and low are its own high and
    low, and its [volatility_score] is NaN. *)
Theorem first_row_metrics (np_sqrt : Q -> Q) (df : list Bar) (r : MetricRow) :
  nth_error (calculate_metrics np_sqrt df) 0 = Some r ->
  feq (ma_7 r) (Fin (close (bar r)))
  /\ week_52_high r = Fin (high (bar r))
  /\ week_52_low r = Fin (low (bar r))
  /\ volatility_score r = NaN.
Proof.
  intros H.
  pose proof (calculate_metrics_row np_sqrt _ _ _ H) as Hrow.
  cbv zeta in Hrow.
  destruct Hrow as (Hb & _ & Hm & Hh & Hl & Hv).
  destruct (sort_values date df) as [|b t]; [discriminate|].
  cbn [nth_error] in Hb. injection Hb as ->.
  unfold trailing in *. cbn in Hm, Hh, Hl.
  split; [|split; [exact Hh|split; [exact Hl|]]].
  - rewrite Hm. unfold feq, Qmean, Qsum, Qlen. simpl. field.
  - rewrite Hv. cbn [Nat.min Nat.sub skipn firstn map].
    unfold window_value.
    destruct (prep_value (row_return (bar r))); reflexivity.
Qed.

Lemma first_row_metrics_witness :
  feq (ma_7 (nth 0 (calculate_metrics sqrt_floor three_days) null_row))
      (Fin 11)
  /\ volatility_score (nth 0 (calculate_metrics sqrt_floor three_days)
                         null_row) = NaN.
Proof.
  destruct (first_row_metrics sqrt_floor three_days
              (nth 0 (calculate_metrics sqrt_floor three_days) null_row))
    as (Hm & _ & _ & Hv).
  - reflexivity.
  - split; [exact Hm|exact Hv].
Defined.

(** X22.  In the daily-returns chart the bar of a row with a positive
    open is green exactly when the close is not below the open. *)
Theorem return_color_green (np_sqrt : Q -> Q) (df : list Bar) (i : nat)
    (r : MetricRow) :
  nth_error (calculate_metrics np_sqrt df) i = Some r ->
  0 < open (bar r) ->
  (return_color (daily_return r) = "green"%string
   <-> open (bar r) <= close (bar r)).
Proof.
  intros H Hopen.
  pose proof (calculate_metrics_row np_sqrt _ _ _ H) as Hrow.
  cbv zeta in Hrow.
  destruct Hrow as (_ & Hd & _).
  assert (Hnz : ~ open (bar r) == 0).
  { intros E. rewrite E in Hopen. exact (Qlt_irrefl _ Hopen). }
  rewrite Hd, (row_return_nonzero_open _ Hnz). unfold return_color.
  destruct (Qle_bool 0 ((close (bar r) - open (bar r)) / open (bar r)))
    eqn:E.
  - split; [intros _|reflexivity].
    apply Qle_bool_iff in E.
    assert (Hmul : 0 <= (close (bar r) - open (bar r)) / open (bar r)
                        * open (bar r))
      by (apply Qmult_le_0_compat; [exact E|apply Qlt_le_weak, Hopen]).
    setoid_replace ((close (bar r) - open (bar r)) / open (bar r)
                    * open (bar r))
      with (close (bar r) - open (bar r)) in Hmul by (field; exact Hnz).
    apply Qle_minus_iff. exact Hmul.
  - split; [discriminate|]. intros Hle. exfalso.
    assert (Hq : 0 <= (close (bar r) - open (bar r)) / open (bar r)).
    { apply Qle_shift_div_l; [exact Hopen|].
      rewrite Qmult_0_l. apply Qle_minus_iff in Hle. exact Hle. }
    apply Qle_bool_iff in Hq. congruence.
Qed.

Lemma return_color_green_witness :
  map (fun r => return_color (daily_return r))
      (calculate_metrics sqrt_floor three_days)
  = ["green"; "green"; "red"]%string
  /\ (return_color
        (daily_return (nth 2 (calculate_metrics sqrt_floor three_days)
                         null_row)) = "green"%string
      <-> 14 <= 9).
Proof.
  split; [reflexivity|].
  apply (return_color_green sqrt_floor three_days 2
           (nth 2 (calculate_metrics sqrt_floor three_days) null_row)).
  - reflexivity.
  - reflexivity.
Defined.

(** ** A refresh during an outage *)

(** X23.  A refresh whose fetch is empty, for a symbol with cached rows,
    writes nothing.  When some cached [volatility_score] is not NULL it
    returns the cached rows with their summary; when every cached
    [volatility_score] is NULL, as with one cached row, it raises the
    [TypeError] of the summary instead. *)
Theorem refresh_empty_fetch_serves_cache (np_sqrt : Q -> Q)
    (yf_history : string -> string -> option (list RawBar))
    (now : timestamp) (db : StockDatabase) (sym : string) :
  let cached := get_all_stock_data db sym in
  cached <> [] ->
  fetch_stock_data yf_history sym "1y" = [] ->
  snd (load_stock_data np_sqrt yf_history now db sym true) = db
  /\ (read_as_objects (map volatility_score cached) = false ->
      fst (load_stock_data np_sqrt yf_history now db sym true)
      = Returned (cached, get_summary_statistics now cached))
  /\ (read_as_objects (map volatility_score cached) = true ->
      fst (load_stock_data np_sqrt yf_history now db sym true)
      = Raised (TypeError float_of_none)).
Proof.
  intros cached Hcache Hfetch.
  rewrite (refresh_empty_fetch_falls_back np_sqrt yf_history now db sym
             Hcache Hfetch).
  fold cached. unfold get_summary_statistics_read_back.
  rewrite (empty_false cached Hcache).
  destruct (read_as_objects (map volatility_score cached)).
  - split; [reflexivity|]. split; [discriminate|reflexivity].
  - split; [reflexivity|]. split; [reflexivity|discriminate].
Qed.

Lemma refresh_empty_fetch_serves_cache_witness :
  load_stock_data sqrt_floor outage_feed 0%Z
    (mkDatabase [] [later_day; stored_day]) "TCS.NS" true
  = (Returned ([stored_day; later_day],
               get_summary_statistics 0%Z [stored_day; later_day]),
     mkDatabase [] [later_day; stored_day]).
Proof.
  destruct (refresh_empty_fetch_serves_cache sqrt_floor outage_feed 0%Z
              (mkDatabase [] [later_day; stored_day]) "TCS.NS")
    as (Hdb & Hrows & _).
  - discriminate.
  - reflexivity.
  - rewrite (surjective_pairing (load_stock_data _ _ _ _ _ _)).
    rewrite Hdb, Hrows; reflexivity.
Defined.
